(** * usePresence: a model of the presence hook and of the React and browser
    machinery it runs on

    Source: [packages/use-presence/src/index.tsx].

    The hook keeps three [useState] cells and registers three [useEffect]
    effects.  Its behaviour over time is decided by React (when an effect is
    re-run, when its destructor is called, when a state update re-renders) and
    by the browser (the table of pending timeouts and animation frames).  Both
    are modelled explicitly:

    - the browser is a [Window]: a finite map of pending [setTimeout] callbacks
      and one of pending [requestAnimationFrame] callbacks, each with its
      counter of handles;
    - React is the function [commit] (destroy the effects whose dependencies
      changed, then create them again, collecting the state updates they
      requested) iterated by [rerender] until no update changes a cell.

    The hook is followed over time at two granularities.  In the first
    ([evaluate], [fire_timeout], [fire_frame], [run]) a call of the hook by
    its parent, and the firing of one browser callback, are each followed by
    React's re-rendering to a fixed point before the next callback is
    delivered; its states are the committed states in which no state update
    is outstanding.  React does not promise that order: the render for the
    updates that an effect requested is a task of its own, and a timeout that
    is due can run before it.  The second granularity ([Fiber], [perform])
    stops after every commit, keeps the requested updates in a queue, and
    lets callbacks run in between.  The first is the second with a render
    after every other task ([evaluate_by_renders], [fire_timeout_by_renders],
    [fire_frame_by_renders]). *)

From Stdlib Require Import ZArith String.
From stdpp Require Import base decidable option gmap strings.

Local Open Scope Z_scope.

(** ** JavaScript values and the environment *)

(** The values that the guard of the reflow step compares. *)
Inductive jsval :=
  | JUndefined
  | JString (s : string).

#[global] Instance jsval_eq_dec : EqDecision jsval.
Proof. solve_decision. Defined.

(** [a !== b]: strict inequality, no coercion. *)
Definition strict_neq (a b : jsval) : bool := bool_decide (a ≠ b).

(** The environment the hook runs in: whether a global [document] exists. *)
Record Env := { hasDocument : bool }.

Definition browser : Env := {| hasDocument := true |}.
Definition no_dom : Env := {| hasDocument := false |}.

(** [typeof document]: a string, also when [document] is not declared. *)
Definition typeof_document (env : Env) : string :=
  if hasDocument env then "object"%string else "undefined"%string.

Inductive error :=
  | ReferenceError            (* [document] is not defined *)
  | MaximumUpdateDepth.       (* React gives up on nested updates *)

Inductive result (A : Type) :=
  | Ok (a : A)
  | Err (e : error).
Arguments Ok {A} a.
Arguments Err {A} e.

(** Sequencing stops at the first exception. *)
#[global] Instance result_bind : MBind result := λ A B k r,
  match r with
  | Ok a => k a
  | Err e => Err e
  end.

(** ** The options object *)

(** [opts]: a JavaScript object; a field is [None] when the key is absent.
    The type of the source is a union of the shared and the separate shape,
    and an object carrying all three durations inhabits it. *)
Record Opts := mkOpts {
  transitionDuration : option Z;
  enterTransitionDuration : option Z;
  exitTransitionDuration : option Z;
  initialEnter : option bool
}.

(** ['transitionDuration' in opts] *)
Definition isSharedConfig (opts : Opts) : bool :=
  match transitionDuration opts with
  | Some _ => true
  | None => false
  end.

(** The two constants computed at the top of [usePresence].  A read of an
    absent property gives [undefined], here [None]. *)
Definition exitTransitionDuration_of (opts : Opts) : option Z :=
  if negb (isSharedConfig opts) then exitTransitionDuration opts
  else transitionDuration opts.

Definition enterTransitionDuration_of (opts : Opts) : option Z :=
  if negb (isSharedConfig opts) then enterTransitionDuration opts
  else transitionDuration opts.

(** [opts.initialEnter ?? false] *)
Definition initialEnter_of (opts : Opts) : bool :=
  default false (initialEnter opts).

(** ** State cells *)

Record Flags := mkFlags {
  animateIsVisible : bool;
  isMounted : bool;
  hasEntered : bool
}.

#[global] Instance Flags_eq_dec : EqDecision Flags.
Proof. solve_decision. Defined.

(** The calls of the three state setters that occur in the source. *)
Inductive setState :=
  | setIsMounted (b : bool)
  | setAnimateIsVisible (b : bool)
  | setHasEntered (b : bool).

#[global] Instance setState_eq_dec : EqDecision setState.
Proof. solve_decision. Defined.

Definition apply_setState (f : Flags) (u : setState) : Flags :=
  match u with
  | setIsMounted b => mkFlags (animateIsVisible f) b (hasEntered f)
  | setAnimateIsVisible b => mkFlags b (isMounted f) (hasEntered f)
  | setHasEntered b => mkFlags (animateIsVisible f) (isMounted f) b
  end.

(** The initial values handed to [useState] on the first render. *)
Definition initial_flags (isVisible : bool) (opts : Opts) : Flags :=
  {| animateIsVisible := if initialEnter_of opts then false else isVisible;
     isMounted := isVisible;
     hasEntered := if initialEnter_of opts then false else isVisible |}.

(** ** What the hook returns *)

Module Out.
Record t := mk {
  isMounted : bool;
  isVisible : bool;
  isAnimating : bool;
  isEntering : bool;
  isExiting : bool
}.
End Out.

Definition isExiting (isVisible : bool) (f : Flags) : bool :=
  isMounted f && negb isVisible.

Definition isEntering (isVisible : bool) (f : Flags) : bool :=
  isVisible && negb (hasEntered f).

Definition isAnimating (isVisible : bool) (f : Flags) : bool :=
  isEntering isVisible f || isExiting isVisible f.

Definition usePresence_return (isVisible : bool) (f : Flags) : Out.t :=
  {| Out.isMounted := isMounted f;
     Out.isVisible := animateIsVisible f;
     Out.isAnimating := isAnimating isVisible f;
     Out.isEntering := isEntering isVisible f;
     Out.isExiting := isExiting isVisible f |}.

(** ** The browser: pending timeouts and animation frames *)

Record Window := mkWindow {
  timers : gmap nat (setState * option Z);   (* callback, delay *)
  nextTimeout : nat;
  frames : gmap nat setState;
  nextFrame : nat;
  reflows : nat                               (* forced layout flushes so far *)
}.

Definition empty_window : Window :=
  {| timers := ∅; nextTimeout := 0; frames := ∅; nextFrame := 0; reflows := 0 |}.

Definition setTimeout (cb : setState) (delay : option Z) (w : Window)
  : nat * Window :=
  (nextTimeout w,
   mkWindow (<[nextTimeout w := (cb, delay)]> (timers w)) (S (nextTimeout w))
            (frames w) (nextFrame w) (reflows w)).

Definition clearTimeout (id : nat) (w : Window) : Window :=
  mkWindow (delete id (timers w)) (nextTimeout w)
           (frames w) (nextFrame w) (reflows w).

Definition requestAnimationFrame (cb : setState) (w : Window) : nat * Window :=
  (nextFrame w,
   mkWindow (timers w) (nextTimeout w)
            (<[nextFrame w := cb]> (frames w)) (S (nextFrame w)) (reflows w)).

Definition cancelAnimationFrame (id : nat) (w : Window) : Window :=
  mkWindow (timers w) (nextTimeout w)
           (delete id (frames w)) (nextFrame w) (reflows w).

(** [document.body.offsetHeight]: forces a layout flush; where [document] is
    not declared the read of the identifier throws. *)
Definition document_body_offsetHeight (env : Env) (w : Window) : result Window :=
  if hasDocument env
  then Ok (mkWindow (timers w) (nextTimeout w) (frames w) (nextFrame w)
                    (S (reflows w)))
  else Err ReferenceError.

(** The guard as written: [typeof document !== undefined]. *)
Definition reflow_guard (env : Env) : bool :=
  strict_neq (JString (typeof_document env)) JUndefined.

Definition force_reflow (env : Env) (w : Window) : result Window :=
  if reflow_guard env then document_body_offsetHeight env w else Ok w.

(** ** The three effects *)

(** What an effect returns: nothing, or a destructor that clears the handle it
    captured. *)
Inductive destructor :=
  | ClearTimeout (id : nat)
  | CancelAnimationFrame (id : nat).

Definition run_destructor (d : option destructor) (w : Window) : Window :=
  match d with
  | None => w
  | Some (ClearTimeout id) => clearTimeout id w
  | Some (CancelAnimationFrame id) => cancelAnimationFrame id w
  end.

(** First effect, dependencies [[isVisible, exitTransitionDuration]]. *)
Definition effect1 (isVisible : bool) (exitD : option Z) (w : Window)
  : list setState * option destructor * Window :=
  if isVisible then ([setIsMounted true], None, w)
  else
    let '(timeoutId, w') := setTimeout (setIsMounted false) exitD w in
    ([setHasEntered false; setAnimateIsVisible false],
     Some (ClearTimeout timeoutId), w').

(** Second effect, dependencies
    [[animateIsVisible, enterTransitionDuration, isMounted, isVisible]]. *)
Definition effect2 (env : Env) (isVisible : bool) (f : Flags) (w : Window)
  : result (option destructor * Window) :=
  if isVisible && isMounted f && negb (animateIsVisible f) then
    w1 ← force_reflow env w;
    let '(animationFrameId, w2) :=
      requestAnimationFrame (setAnimateIsVisible true) w1 in
    Ok (Some (CancelAnimationFrame animationFrameId), w2)
  else Ok (None, w).

(** Third effect, dependencies
    [[animateIsVisible, enterTransitionDuration, hasEntered]]. *)
Definition effect3 (enterD : option Z) (f : Flags) (w : Window)
  : option destructor * Window :=
  if animateIsVisible f && negb (hasEntered f) then
    let '(timeoutId, w') := setTimeout (setHasEntered true) enterD w in
    (Some (ClearTimeout timeoutId), w')
  else (None, w).

(** ** React: the memory of a mounted hook and the commit of a render *)

(** A value in a dependency array of the source: a boolean or a duration. *)
Inductive dep :=
  | DepBool (b : bool)
  | DepNumber (n : option Z).

Definition same_number (x y : option Z) : bool := bool_decide (x = y).

(** [Object.is] on the values that occur. *)
Definition Object_is (a b : dep) : bool :=
  match a, b with
  | DepBool x, DepBool y => Bool.eqb x y
  | DepNumber x, DepNumber y => same_number x y
  | _, _ => false
  end.

(** React's comparison of the dependency arrays of two renders. *)
Fixpoint areHookInputsEqual (next prev : list dep) : bool :=
  match next, prev with
  | n :: next', p :: prev' => Object_is n p && areHookInputsEqual next' prev'
  | _, _ => true
  end.

(** What React remembers of an effect: the dependencies of its last run and
    the destructor that run returned.  [None] before the first commit. *)
Definition Memo : Type := option (list dep * option destructor).

Definition depsChanged (m : Memo) (next : list dep) : bool :=
  match m with
  | None => true
  | Some (prev, _) => negb (areHookInputsEqual next prev)
  end.

Definition destroy (m : Memo) (w : Window) : Window :=
  match m with
  | None => w
  | Some (_, d) => run_destructor d w
  end.

Record Hook := mkHook {
  isVisible : bool;          (* the arguments of the latest call *)
  opts : Opts;
  flags : Flags;             (* the three useState cells *)
  memo1 : Memo;
  memo2 : Memo;
  memo3 : Memo;
  window : Window
}.

Definition deps1 (s : Hook) : list dep :=
  [DepBool (isVisible s); DepNumber (exitTransitionDuration_of (opts s))].
Definition deps2 (s : Hook) : list dep :=
  [DepBool (animateIsVisible (flags s));
   DepNumber (enterTransitionDuration_of (opts s));
   DepBool (isMounted (flags s)); DepBool (isVisible s)].
Definition deps3 (s : Hook) : list dep :=
  [DepBool (animateIsVisible (flags s));
   DepNumber (enterTransitionDuration_of (opts s));
   DepBool (hasEntered (flags s))].

(** One render and its commit.  React first calls the destructors of all
    effects whose dependencies changed, in order, then runs those effects
    again, in order.  The state updates requested meanwhile are returned; they
    take effect at the next render. *)
Definition commit (env : Env) (s : Hook) : result (Hook * list setState) :=
  let c1 := depsChanged (memo1 s) (deps1 s) in
  let c2 := depsChanged (memo2 s) (deps2 s) in
  let c3 := depsChanged (memo3 s) (deps3 s) in
  let w := window s in
  let w := if c1 then destroy (memo1 s) w else w in
  let w := if c2 then destroy (memo2 s) w else w in
  let w := if c3 then destroy (memo3 s) w else w in
  let '(us, m1, w) :=
    if c1 then
      let '(us, d, w') :=
        effect1 (isVisible s) (exitTransitionDuration_of (opts s)) w in
      (us, Some (deps1 s, d), w')
    else ([], memo1 s, w) in
  '(m2, w) ←
    (if c2 then
       '(d, w') ← effect2 env (isVisible s) (flags s) w;
       Ok (Some (deps2 s, d), w')
     else Ok (memo2 s, w));
  let '(m3, w) :=
    if c3 then
      let '(d, w') := effect3 (enterTransitionDuration_of (opts s)) (flags s) w in
      (Some (deps3 s, d), w')
    else (memo3 s, w) in
  Ok (mkHook (isVisible s) (opts s) (flags s) m1 m2 m3 w, us).

Definition with_flags (f : Flags) (s : Hook) : Hook :=
  mkHook (isVisible s) (opts s) f (memo1 s) (memo2 s) (memo3 s) (window s).

Definition with_window (w : Window) (s : Hook) : Hook :=
  mkHook (isVisible s) (opts s) (flags s) (memo1 s) (memo2 s) (memo3 s) w.

(** Render and commit until the updates requested by the effects leave the
    cells unchanged.  React bounds the depth of such nested updates. *)
Fixpoint rerender (fuel : nat) (env : Env) (s : Hook) : result Hook :=
  match fuel with
  | O => Err MaximumUpdateDepth
  | S fuel' =>
    '(s', us) ← commit env s;
    let f' := fold_left apply_setState us (flags s') in
    if decide (f' = flags s') then Ok s'
    else rerender fuel' env (with_flags f' s')
  end.

Definition update_depth_limit : nat := 50.

(** ** The operations of the model *)

(** First call of the hook: the cells are initialised, every effect runs. *)
Definition mount (env : Env) (isVisible : bool) (opts : Opts) : result Hook :=
  rerender update_depth_limit env
    (mkHook isVisible opts (initial_flags isVisible opts)
            None None None empty_window).

(** A later call with new arguments. *)
Definition evaluate (env : Env) (isVisible : bool) (opts : Opts) (s : Hook)
  : result Hook :=
  rerender update_depth_limit env
    (mkHook isVisible opts (flags s) (memo1 s) (memo2 s) (memo3 s) (window s)).

(** A state setter called from a browser callback: the cell is written and,
    when its value changed, the hook is rendered again. *)
Definition dispatch (env : Env) (u : setState) (s : Hook) : result Hook :=
  let f' := apply_setState (flags s) u in
  if decide (f' = flags s) then Ok s
  else rerender update_depth_limit env (with_flags f' s).

(** The browser runs the timeout [id]: the timer is one-shot and leaves the
    table as its callback runs.  A handle that is not pending (never issued,
    already run, or cleared) has no callback to run. *)
Definition fire_timeout (env : Env) (id : nat) (s : Hook) : result Hook :=
  match timers (window s) !! id with
  | None => Ok s
  | Some (cb, _) =>
    dispatch env cb (with_window (clearTimeout id (window s)) s)
  end.

(** The browser runs the animation frame callback [id]. *)
Definition fire_frame (env : Env) (id : nat) (s : Hook) : result Hook :=
  match frames (window s) !! id with
  | None => Ok s
  | Some cb =>
    dispatch env cb (with_window (cancelAnimationFrame id (window s)) s)
  end.

Inductive event :=
  | Evaluate (isVisible : bool) (opts : Opts)
  | FireTimeout (id : nat)
  | FireFrame (id : nat).

Definition step (env : Env) (e : event) (s : Hook) : result Hook :=
  match e with
  | Evaluate v o => evaluate env v o s
  | FireTimeout id => fire_timeout env id s
  | FireFrame id => fire_frame env id s
  end.

Fixpoint run (env : Env) (es : list event) (s : Hook) : result Hook :=
  match es with
  | [] => Ok s
  | e :: es' => s' ← step env e s; run env es' s'
  end.

(** The states the hook can be in: after the first call, and after any event
    that did not throw. *)
Inductive reachable (env : Env) : Hook → Prop :=
  | reachable_mount v o s :
      mount env v o = Ok s → reachable env s
  | reachable_step e s s' :
      reachable env s → step env e s = Ok s' → reachable env s'.

(** What the hook returned at its latest render. *)
Definition observe (s : Hook) : Out.t := usePresence_return (isVisible s) (flags s).

(** ** The shape of the committed states *)

(** The condition under which the second effect requests a frame. *)
Definition awaits_paint (s : Hook) : bool :=
  isVisible s && isMounted (flags s) && negb (animateIsVisible (flags s)).

(** The condition under which the third effect starts the enter timer. *)
Definition awaits_enter (s : Hook) : bool :=
  animateIsVisible (flags s) && negb (hasEntered (flags s)).

(** The pending timeouts and what the first and third effect remember.
    While the target is hidden the only timeout is the exit timer, unless it
    has run already, which leaves the hook unmounted; while the target is
    visible the only timeout is the enter timer, and it is pending exactly
    when the third effect's condition holds. *)
Definition timers_shape (s : Hook) : Prop :=
  if isVisible s then
    memo1 s = Some (deps1 s, None) ∧
    if awaits_enter s then
      ∃ id, memo3 s = Some (deps3 s, Some (ClearTimeout id)) ∧
        (id < nextTimeout (window s))%nat ∧
        timers (window s) =
          {[ id := (setHasEntered true, enterTransitionDuration_of (opts s)) ]}
    else memo3 s = Some (deps3 s, None) ∧ timers (window s) = ∅
  else
    memo3 s = Some (deps3 s, None) ∧
    ∃ id, memo1 s = Some (deps1 s, Some (ClearTimeout id)) ∧
      (id < nextTimeout (window s))%nat ∧
      (timers (window s) =
         {[ id := (setIsMounted false, exitTransitionDuration_of (opts s)) ]}
       ∨ (timers (window s) = ∅ ∧ isMounted (flags s) = false)).

(** The pending animation frames and what the second effect remembers. *)
Definition frames_shape (s : Hook) : Prop :=
  if awaits_paint s then
    ∃ id, memo2 s = Some (deps2 s, Some (CancelAnimationFrame id)) ∧
      (id < nextFrame (window s))%nat ∧
      frames (window s) = {[ id := setAnimateIsVisible true ]}
  else memo2 s = Some (deps2 s, None) ∧ frames (window s) = ∅.

Definition flags_shape (s : Hook) : Prop :=
  (isVisible s = false →
   animateIsVisible (flags s) = false ∧ hasEntered (flags s) = false) ∧
  (isMounted (flags s) = false → isVisible s = false).

Definition committed (s : Hook) : Prop :=
  flags_shape s ∧ timers_shape s ∧ frames_shape s.

(** ** Handles are never reused *)

Definition no_new_handles (s s' : Hook) : Prop :=
  (nextFrame (window s) ≤ nextFrame (window s'))%nat ∧
  (nextTimeout (window s) ≤ nextTimeout (window s'))%nat ∧
  (∀ k, is_Some (frames (window s') !! k) →
        is_Some (frames (window s) !! k) ∨ (nextFrame (window s) ≤ k)%nat) ∧
  (∀ k, is_Some (timers (window s') !! k) →
        is_Some (timers (window s) !! k) ∨ (nextTimeout (window s) ≤ k)%nat).

(** ** Events that are browser callbacks *)

Definition is_callback (e : event) : bool :=
  match e with
  | Evaluate _ _ => false
  | FireTimeout _ | FireFrame _ => true
  end.

(** ** Sample configurations and states

    Concrete states of the hook, written out; each is shown further down to
    be the result of a run from the first call. *)

Definition shared100 : Opts := mkOpts (Some 100) None None None.

Definition sample_hidden : Hook :=
  {| isVisible := false; opts := shared100;
     flags := mkFlags false false false;
     memo1 := Some ([DepBool false; DepNumber (Some 100)], Some (ClearTimeout 0));
     memo2 := Some ([DepBool false; DepNumber (Some 100); DepBool false; DepBool false], None);
     memo3 := Some ([DepBool false; DepNumber (Some 100); DepBool false], None);
     window := mkWindow {[ 0%nat := (setIsMounted false, Some 100) ]} 1 ∅ 0 0 |}.

Definition sample_unmounted : Hook :=
  {| isVisible := false; opts := shared100;
     flags := mkFlags false false false;
     memo1 := Some ([DepBool false; DepNumber (Some 100)], Some (ClearTimeout 2));
     memo2 := Some ([DepBool false; DepNumber (Some 100); DepBool false; DepBool false], None);
     memo3 := Some ([DepBool false; DepNumber (Some 100); DepBool false], None);
     window := mkWindow ∅ 3 ∅ 1 1 |}.

Definition separate50_200 : Opts := mkOpts None (Some 50) (Some 200) None.

Definition sample_entered : Hook :=
  {| isVisible := true; opts := shared100;
     flags := mkFlags true true true;
     memo1 := Some ([DepBool true; DepNumber (Some 100)], None);
     memo2 := Some ([DepBool true; DepNumber (Some 100); DepBool true; DepBool true], None);
     memo3 := Some ([DepBool true; DepNumber (Some 100); DepBool true], None);
     window := mkWindow ∅ 0 ∅ 0 0 |}.

Definition sample_pre_entry : Hook :=
  {| isVisible := true; opts := shared100;
     flags := mkFlags false true false;
     memo1 := Some ([DepBool true; DepNumber (Some 100)], None);
     memo2 := Some ([DepBool false; DepNumber (Some 100); DepBool true; DepBool true],
                    Some (CancelAnimationFrame 0));
     memo3 := Some ([DepBool false; DepNumber (Some 100); DepBool false], None);
     window := mkWindow ∅ 1 {[ 0%nat := setAnimateIsVisible true ]} 1 1 |}.

Definition sample_entering : Hook :=
  {| isVisible := true; opts := separate50_200;
     flags := mkFlags true true false;
     memo1 := Some ([DepBool true; DepNumber (Some 200)], None);
     memo2 := Some ([DepBool true; DepNumber (Some 50); DepBool true; DepBool true], None);
     memo3 := Some ([DepBool true; DepNumber (Some 50); DepBool false],
                    Some (ClearTimeout 1));
     window := mkWindow {[ 1%nat := (setHasEntered true, Some 50) ]} 2 ∅ 1 1 |}.

Definition sample_exiting : Hook :=
  {| isVisible := false; opts := separate50_200;
     flags := mkFlags false true false;
     memo1 := Some ([DepBool false; DepNumber (Some 200)], Some (ClearTimeout 2));
     memo2 := Some ([DepBool false; DepNumber (Some 50); DepBool true; DepBool false], None);
     memo3 := Some ([DepBool false; DepNumber (Some 50); DepBool false], None);
     window := mkWindow {[ 2%nat := (setIsMounted false, Some 200) ]} 3 ∅ 1 1 |}.

(** The spec's notion of misuse (section 7: a negative duration, or a
    required duration field that is missing), written from its words to be
    compared with what the code accepts. *)
Definition spec_misuse (o : Opts) : bool :=
  let negative d := match d with Some z => z <? 0 | None => false end in
  negative (transitionDuration o) || negative (enterTransitionDuration o) ||
  negative (exitTransitionDuration o) ||
  match transitionDuration o, enterTransitionDuration o,
        exitTransitionDuration o with
  | Some _, _, _ | None, Some _, Some _ => false
  | _, _, _ => true
  end.

Definition negative5 : Opts := mkOpts (Some (-5)) None None None.

Definition sample_negative : Hook :=
  {| isVisible := false; opts := negative5;
     flags := mkFlags false false false;
     memo1 := Some ([DepBool false; DepNumber (Some (-5))], Some (ClearTimeout 0));
     memo2 := Some ([DepBool false; DepNumber (Some (-5)); DepBool false; DepBool false], None);
     memo3 := Some ([DepBool false; DepNumber (Some (-5)); DepBool false], None);
     window := mkWindow {[ 0%nat := (setIsMounted false, Some (-5)) ]} 1 ∅ 0 0 |}.

(** ** Teardown, and further facts about committed states *)

(** Teardown: React calls the destructor of every effect, in order. *)
Definition unmount (s : Hook) : Window :=
  destroy (memo3 s) (destroy (memo2 s) (destroy (memo1 s) (window s))).

(** Two more facts about a committed state: the entry has completed only if
    the element is shown, and every requested frame was preceded by one
    forced reflow. *)
Definition steady (s : Hook) : Prop :=
  (hasEntered (flags s) = true → animateIsVisible (flags s) = true) ∧
  reflows (window s) = nextFrame (window s).

(** The hook with the options object replaced and nothing else touched. *)
Definition with_opts (o : Opts) (s : Hook) : Hook :=
  mkHook (isVisible s) o (flags s) (memo1 s) (memo2 s) (memo3 s) (window s).

(** ** One render at a time

    [evaluate], [fire_timeout] and [fire_frame] above carry a call or a
    callback through to the last render it causes.  React runs the render
    for the updates an effect or a callback requested as a task of its own,
    and a timeout or an animation frame that is due may run before it.  The
    operations below stop after each commit: the state updates requested so
    far wait in a queue until the next render, and callbacks may run
    meanwhile. *)

Record Fiber := mkFiber {
  hook : Hook;               (* what the last commit left *)
  queue : list setState      (* the state updates requested since *)
}.

(** The cells as the next render will read them. *)
Definition pending_flags (p : Fiber) : Flags :=
  fold_left apply_setState (queue p) (flags (hook p)).

(** One render and its commit; the updates of its effects are queued. *)
Definition render (env : Env) (s : Hook) : result Fiber :=
  '(s', us) ← commit env s; Ok (mkFiber s' us).

Definition initial_hook (isVisible : bool) (opts : Opts) : Hook :=
  mkHook isVisible opts (initial_flags isVisible opts) None None None
         empty_window.

(** The first call of the hook, up to its commit. *)
Definition first_call (env : Env) (isVisible : bool) (opts : Opts)
  : result Fiber :=
  render env (initial_hook isVisible opts).

(** A later call: the render reads the queued updates. *)
Definition call (env : Env) (isVisible : bool) (opts : Opts) (p : Fiber)
  : result Fiber :=
  render env
    (mkHook isVisible opts (pending_flags p) (memo1 (hook p)) (memo2 (hook p))
            (memo3 (hook p)) (window (hook p))).

(** The render React schedules for queued updates; none if they leave every
    cell as it is. *)
Definition flush (env : Env) (p : Fiber) : result Fiber :=
  if decide (pending_flags p = flags (hook p)) then Ok (mkFiber (hook p) [])
  else render env (with_flags (pending_flags p) (hook p)).

(** The browser runs the timeout [id]: its setter call is queued. *)
Definition timeout (id : nat) (p : Fiber) : Fiber :=
  match timers (window (hook p)) !! id with
  | None => p
  | Some (cb, _) =>
    mkFiber (with_window (clearTimeout id (window (hook p))) (hook p))
            (queue p ++ [cb])
  end.

(** The browser runs the animation frame callback [id]. *)
Definition frame (id : nat) (p : Fiber) : Fiber :=
  match frames (window (hook p)) !! id with
  | None => p
  | Some cb =>
    mkFiber (with_window (cancelAnimationFrame id (window (hook p))) (hook p))
            (queue p ++ [cb])
  end.

Inductive task :=
  | Call (isVisible : bool) (opts : Opts)
  | Flush
  | Timeout (id : nat)
  | Frame (id : nat).

Definition perform (env : Env) (t : task) (p : Fiber) : result Fiber :=
  match t with
  | Call v o => call env v o p
  | Flush => flush env p
  | Timeout id => Ok (timeout id p)
  | Frame id => Ok (frame id p)
  end.

Fixpoint perform_all (env : Env) (ts : list task) (p : Fiber) : result Fiber :=
  match ts with
  | [] => Ok p
  | t :: ts' => p' ← perform env t p; perform_all env ts' p'
  end.

(** The hook while it animates in, under [{transitionDuration: 100}]. *)
Definition sample_entering100 : Hook :=
  {| isVisible := true; opts := shared100;
     flags := mkFlags true true false;
     memo1 := Some ([DepBool true; DepNumber (Some 100)], None);
     memo2 := Some ([DepBool true; DepNumber (Some 100); DepBool true; DepBool true], None);
     memo3 := Some ([DepBool true; DepNumber (Some 100); DepBool false],
                    Some (ClearTimeout 1));
     window := mkWindow {[ 1%nat := (setHasEntered true, Some 100) ]} 2 ∅ 1 1 |}.

(** The states of the hook under every interleaving of calls, renders and
    callbacks. *)
Inductive ireachable (env : Env) : Fiber → Prop :=
  | ireachable_first v o p :
      first_call env v o = Ok p → ireachable env p
  | ireachable_step t p p' :
      ireachable env p → perform env t p = Ok p' → ireachable env p'.

(** A task that does not make the target visible. *)
Definition stays_hidden (t : task) : bool :=
  match t with
  | Call true _ => false
  | _ => true
  end.

(** What the second effect remembers accounts for every pending frame, and a
    frame is only requested by a render with a visible target. *)
Definition paint_tracked (s : Hook) : Prop :=
  match memo2 s with
  | None => frames (window s) = ∅
  | Some (ds, d) =>
    length ds = 4%nat ∧
    match d with
    | None => frames (window s) = ∅
    | Some (CancelAnimationFrame k) =>
      ds !! 3%nat = Some (DepBool true) ∧
      ∀ j cb, frames (window s) !! j = Some cb → j = k
    | Some (ClearTimeout _) => False
    end
  end.

(** The callbacks of the pending timeouts never touch [animateIsVisible]. *)
Definition timers_tracked (s : Hook) : Prop :=
  ∀ id cb d, timers (window s) !! id = Some (cb, d) →
    cb = setHasEntered true ∨ cb = setIsMounted false.

(** The window once the destructors of the effects to re-run were called. *)
Definition destroyed (s : Hook) : Window :=
  let w := window s in
  let w := if depsChanged (memo1 s) (deps1 s) then destroy (memo1 s) w else w in
  let w := if depsChanged (memo2 s) (deps2 s) then destroy (memo2 s) w else w in
  if depsChanged (memo3 s) (deps3 s) then destroy (memo3 s) w else w.

(** The first effect remembers the target of the last commit. *)
Definition memo1_tracked (s : Hook) : Prop :=
  ∃ x d, memo1 s = Some ([DepBool (isVisible s); DepNumber x], d).

(** The facts that hold of the hook between any two tasks. *)
Definition tracked (p : Fiber) : Prop :=
  paint_tracked (hook p) ∧ timers_tracked (hook p) ∧ memo1_tracked (hook p) ∧
  (isVisible (hook p) = false →
   frames (window (hook p)) = ∅ ∧ animateIsVisible (pending_flags p) = false).

(** * The bundler configuration of next-query-params

    Source: [packages/next-query-params/tsdx.config.js]. *)

(** An entry of [config.plugins]: rollup accepts falsy entries besides plugin
    objects.  An object is known by its [name], if it has one, and by a
    number that tells objects apart. *)
Inductive plugin :=
  | PluginFalse
  | PluginNullish
  | PluginObject (name : option string) (id : nat).

#[global] Instance plugin_eq_dec : EqDecision plugin.
Proof. solve_decision. Defined.

(** The callback handed to [findIndex]:
    [plugin && plugin.name === 'commonjs'], as a truth value. *)
Definition is_commonjs (p : plugin) : bool :=
  match p with
  | PluginObject (Some n) _ => String.eqb n "commonjs"
  | _ => false
  end.

(** [Array.prototype.findIndex]; [None] stands for the result -1. *)
Fixpoint findIndex (f : plugin → bool) (l : list plugin) : option nat :=
  match l with
  | [] => None
  | p :: l' => if f p then Some 0%nat else S <$> findIndex f l'
  end.

(** A JavaScript array of plugins: its elements, and the own property
    ["-1"], which is not an element. *)
Record PluginArray := mkPluginArray {
  items : list plugin;
  minus_one : option plugin
}.

(** [a[i] = v] for [i] an index or -1.  An index past the end extends the
    array, the holes reading as undefined; -1 names a property. *)
Definition assign (i : option nat) (v : plugin) (a : PluginArray) : PluginArray :=
  match i with
  | None => mkPluginArray (items a) (Some v)
  | Some n =>
    mkPluginArray
      (if decide (n < length (items a))%nat then <[n := v]> (items a)
       else items a ++ replicate (n - length (items a)) PluginNullish ++ [v])
      (minus_one a)
  end.

(** [a.unshift(v)] *)
Definition unshift (v : plugin) (a : PluginArray) : PluginArray :=
  mkPluginArray (v :: items a) (minus_one a).

(** The dependencies that are bundled. *)
Definition bundled : list string :=
  ["use-query-params"; "serialize-query-params"; "query-string";
   "decode-uri-component"; "filter-obj"; "split-on-first";
   "strict-uri-encode"]%string.

(** [l.includes(id)] *)
Definition includes (l : list string) (id : string) : bool :=
  existsb (String.eqb id) l.

Definition commonjs_include : string :=
  "../../node_modules/query-string/index.js".

Record Config := mkConfig {
  external : string → bool;
  plugins : PluginArray
}.

(** [rollup(config)].  [commonjs] is the factory of [@rollup/plugin-commonjs],
    a parameter here: it is given the [include] option. *)
Definition rollup (commonjs : string → plugin) (config : Config) : Config :=
  let fallbackExternal := external config in
  let external' := λ id,
    if includes bundled id then false else fallbackExternal id in
  let commonjsPluginIndex := findIndex is_commonjs (items (plugins config)) in
  let plugins1 := assign commonjsPluginIndex PluginFalse (plugins config) in
  mkConfig external' (unshift (commonjs commonjs_include) plugins1).

(** How many entries are commonjs plugins. *)
Definition count_commonjs (l : list plugin) : nat :=
  length (List.filter is_commonjs l).

Definition sample_commonjs (include : string) : plugin :=
  PluginObject (Some "commonjs"%string) 1.

Definition sample_config : Config :=
  mkConfig (λ id, negb (String.eqb id "lodash"))
    (mkPluginArray
       [PluginObject (Some "babel"%string) 7; PluginFalse;
        PluginObject (Some "commonjs"%string) 0;
        PluginObject (Some "terser"%string) 9] None).

(** * Properties *)

(** ** React settles after at most two renders *)

Lemma same_number_refl x : same_number x x = true.
Proof. by apply bool_decide_eq_true. Qed.

Lemma Object_is_refl a : Object_is a a = true.
Proof. destruct a as [[]|]; cbn; auto using same_number_refl. Qed.

Lemma areHookInputsEqual_refl ds : areHookInputsEqual ds ds = true.
Proof. induction ds; cbn; [done|]. by rewrite Object_is_refl. Qed.

Section Commit.
Variable env : Env.

(** A commit leaves the arguments and the cells as they are, and afterwards
    the first effect remembers the dependencies of this render. *)
Lemma commit_frame s s' us :
  commit env s = Ok (s', us) →
  isVisible s' = isVisible s ∧ opts s' = opts s ∧ flags s' = flags s ∧
  depsChanged (memo1 s') (deps1 s) = false.
Proof.
  unfold commit, mbind, result_bind. intros H.
  repeat case_match; simplify_eq/=; repeat split; try done.
  all: by rewrite Bool.eqb_reflx, same_number_refl.
Qed.

(** Only the first effect calls state setters while it runs. *)
Lemma commit_no_update s s' us :
  depsChanged (memo1 s) (deps1 s) = false →
  commit env s = Ok (s', us) → us = [].
Proof.
  unfold commit, mbind, result_bind. intros -> H.
  repeat case_match; by simplify_eq/=.
Qed.

Lemma rerender_two n s :
  rerender (S (S n)) env s = rerender 2 env s.
Proof.
  cbn [rerender]. destruct (commit env s) as [[s1 us]|e] eqn:E1; [|done].
  cbn. case_decide as Hf; [done|].
  apply commit_frame in E1 as (Hv & Ho & _ & Hd).
  set (s2 := with_flags _ s1).
  assert (depsChanged (memo1 s2) (deps1 s2) = false) as Hd2.
  { unfold deps1 in *. cbn. by rewrite Hv, Ho. }
  destruct (commit env s2) as [[s3 us3]|e] eqn:E2; [|done].
  apply (commit_no_update _ _ _ Hd2) in E2 as ->. cbn.
  by case_decide.
Qed.
End Commit.

(** ** Symbolic execution of the hook *)

Arguments exitTransitionDuration_of : simpl never.
Arguments enterTransitionDuration_of : simpl never.
Arguments same_number : simpl never.
Arguments deps1 s /.
Arguments deps2 s /.
Arguments deps3 s /.

Arguments with_flags f s /.
Arguments with_window w s /.
Arguments setTimeout cb delay w /.
Arguments clearTimeout id w /.
Arguments requestAnimationFrame cb w /.
Arguments cancelAnimationFrame id w /.

Lemma reflow_guard_holds env : reflow_guard env = true.
Proof. by destruct env as [[]]. Qed.

Lemma force_reflow_reads env w :
  force_reflow env w = document_body_offsetHeight env w.
Proof. unfold force_reflow. by rewrite reflow_guard_holds. Qed.

Lemma rerender_limit env s : rerender update_depth_limit env s = rerender 2 env s.
Proof. apply rerender_two. Qed.

(** Equations between explicit finite maps, by extensionality. *)
Ltac solve_map :=
  apply map_eq; intros ?;
  repeat first [rewrite lookup_insert | rewrite lookup_delete
               | rewrite lookup_singleton | rewrite lookup_empty];
  repeat case_decide; simplify_eq; try done; lia.

(** Goals made of conjunctions, handles to exhibit and equations. *)
Ltac solve_shape :=
  repeat match goal with
  | |- _ ∧ _ => split
  | |- ∃ _, _ => eexists
  | |- Some _ = Some _ => reflexivity
  | |- Ok _ = Ok _ => reflexivity
  | |- (_ < _)%nat => lia
  | |- _ → _ => intros ?
  | |- _ ∨ _ => first [left; solve_shape; fail | right; solve_shape; fail]
  | |- @eq (gmap _ _) _ _ => solve_map
  | |- _ => done
  end.

(** Symbolic execution of renders in a hypothesis.  The side conditions are
    closed by tactics that look at the goal only. *)
Ltac exec_step Hs :=
  cbn in Hs; rewrite ?force_reflow_reads, ?same_number_refl in Hs;
  repeat match goal with
         | E : same_number _ _ = false |- _ => rewrite E in Hs
         end;
  try first [rewrite decide_True in Hs by reflexivity
            | rewrite decide_False in Hs
                by (let E := fresh in intros E; discriminate E)].

(** Deletions and insertions on explicit maps, normalised. *)
Ltac map_norm_in H :=
  repeat first
    [ rewrite delete_insert_eq in H
    | rewrite delete_insert_ne in H by lia
    | rewrite delete_singleton_eq in H
    | rewrite delete_singleton_ne in H by lia
    | rewrite delete_empty in H
    | rewrite insert_empty in H ].

Ltac exec_in Hs :=
  rewrite ?rerender_limit in Hs; unfold rerender, commit in Hs;
  repeat (progress (exec_step Hs));
  map_norm_in Hs.

Ltac unfold_committed :=
  unfold committed, flags_shape, timers_shape, frames_shape,
    awaits_paint, awaits_enter.

(** The seven shapes of a committed state. *)
Ltac committed_cases s Hc :=
  let Hf1 := fresh in let Hf2 := fresh in
  let Ht := fresh in let Hfr := fresh in
  destruct Hc as ((Hf1 & Hf2) & Ht & Hfr);
  destruct s as [[] ? [[] [] []] ? ? ? [? ? ? ? ?]];
  unfold timers_shape, frames_shape, awaits_paint, awaits_enter in Ht, Hfr;
  cbn in Hf1, Hf2, Ht, Hfr;
  try (by destruct Hf1); try (by discriminate Hf2);
  clear Hf1 Hf2;
  destruct_and?;
  repeat match goal with H : ∃ _, _ |- _ => destruct H as (? & ? & ? & ?) end;
  try destruct_or?; destruct_and?; simplify_eq.

(** Whether the new durations are those of the previous render. *)
Ltac compare_durations o o0 Hs :=
  let Ex := fresh "Ex" in
  let En := fresh "En" in
  (destruct (same_number (exitTransitionDuration_of o)
                         (exitTransitionDuration_of o0)) eqn:Ex;
    [apply bool_decide_eq_true in Ex; rewrite <- Ex in Hs; clear Ex|]);
  (destruct (same_number (enterTransitionDuration_of o)
                         (enterTransitionDuration_of o0)) eqn:En;
    [apply bool_decide_eq_true in En; rewrite <- En in Hs; clear En|]).

Section Committed.
Variable env : Env.

Lemma committed_mount v o s : mount env v o = Ok s → committed s.
Proof.
  intros Hs. unfold mount in Hs.
  destruct env as [[]], v, (initialEnter_of o) eqn:Hie;
    unfold initial_flags in Hs; rewrite Hie in Hs;
    exec_in Hs; simplify_eq; unfold_committed; cbn; solve_shape.
Qed.

Lemma committed_evaluate v o s s' :
  committed s → evaluate env v o s = Ok s' → committed s'.
Proof.
  intros Hc Hs. unfold evaluate in Hs.
  committed_cases s Hc.
  all: match type of Hs with
       | context [memo1 (mkHook _ ?o0 _ _ _ _ _)] => compare_durations o o0 Hs
       end.
  all: destruct env as [[]], v; exec_in Hs; simplify_eq.
  all: unfold_committed; cbn; solve_shape.
Qed.

Lemma committed_fire_timeout id s s' :
  committed s → fire_timeout env id s = Ok s' → committed s'.
Proof.
  intros Hc Hs. unfold fire_timeout in Hs.
  committed_cases s Hc.
  all: cbn in Hs; rewrite ?lookup_empty, ?lookup_singleton in Hs.
  all: try case_decide; subst; unfold dispatch in Hs.
  all: destruct env as [[]]; exec_in Hs; simplify_eq.
  all: unfold_committed; cbn; solve_shape.
Qed.

Lemma committed_fire_frame id s s' :
  committed s → fire_frame env id s = Ok s' → committed s'.
Proof.
  intros Hc Hs. unfold fire_frame in Hs.
  committed_cases s Hc.
  all: cbn in Hs; rewrite ?lookup_empty, ?lookup_singleton in Hs.
  all: try case_decide; subst; unfold dispatch in Hs.
  all: destruct env as [[]]; exec_in Hs; simplify_eq.
  all: unfold_committed; cbn; solve_shape.
Qed.

Lemma committed_step e s s' : committed s → step env e s = Ok s' → committed s'.
Proof.
  destruct e; cbn [step]; intros Hc Hs;
    [eapply committed_evaluate | eapply committed_fire_timeout
    | eapply committed_fire_frame]; eassumption.
Qed.

Lemma reachable_committed s : reachable env s → committed s.
Proof.
  induction 1; eauto using committed_mount, committed_step.
Qed.
End Committed.

(** Runs the operation at the head of an existential goal in a hypothesis. *)
Ltac next_result H :=
  match goal with
  | |- ∃ x, ?r = Ok x ∧ @?P x => destruct r as [?|?] eqn:H
  end.

Ltac take_result := eexists; split; [reflexivity|]; cbn.

Ltac facts := repeat (split; [first [done | solve_map]|]).

Ltac take_handle := eexists; split; [reflexivity|].

Ltac fire_in H :=
  unfold fire_timeout, fire_frame in H; cbn in H;
  rewrite ?lookup_empty, ?lookup_insert_eq, ?lookup_singleton_eq in H;
  unfold dispatch in H; exec_in H; simplify_eq.

(** ** Handles are never reused *)

Ltac solve_handles :=
  unfold no_new_handles; cbn;
  repeat match goal with
  | |- _ ∧ _ => split
  | |- (_ ≤ _)%nat => lia
  | |- ∀ _ : nat, _ => intros ?
  end;
  repeat first [rewrite lookup_insert | rewrite lookup_delete
               | rewrite lookup_singleton | rewrite lookup_empty];
  repeat case_decide; subst;
  (let H := fresh in intros [? H]; try discriminate H);
  first [left; eexists; reflexivity | right; lia].

Section Handles.
Variable env : Env.

Lemma evaluate_no_new_handles v o s s' :
  committed s → evaluate env v o s = Ok s' → no_new_handles s s'.
Proof.
  intros Hc Hs. unfold evaluate in Hs.
  committed_cases s Hc.
  all: match type of Hs with
       | context [memo1 (mkHook _ ?o0 _ _ _ _ _)] => compare_durations o o0 Hs
       end.
  all: destruct env as [[]], v; exec_in Hs; simplify_eq.
  all: solve_handles.
Qed.

Lemma fire_timeout_no_new_handles id s s' :
  committed s → fire_timeout env id s = Ok s' → no_new_handles s s'.
Proof.
  intros Hc Hs. unfold fire_timeout in Hs.
  committed_cases s Hc.
  all: cbn in Hs; rewrite ?lookup_empty, ?lookup_singleton in Hs.
  all: try case_decide; subst; unfold dispatch in Hs.
  all: destruct env as [[]]; exec_in Hs; simplify_eq.
  all: solve_handles.
Qed.

Lemma fire_frame_no_new_handles id s s' :
  committed s → fire_frame env id s = Ok s' → no_new_handles s s'.
Proof.
  intros Hc Hs. unfold fire_frame in Hs.
  committed_cases s Hc.
  all: cbn in Hs; rewrite ?lookup_empty, ?lookup_singleton in Hs.
  all: try case_decide; subst; unfold dispatch in Hs.
  all: destruct env as [[]]; exec_in Hs; simplify_eq.
  all: solve_handles.
Qed.
End Handles.

(** ** Facts about arbitrary runs *)

Section Runs.
Variable env : Env.

Lemma rerender_arguments n s s' :
  rerender n env s = Ok s' → isVisible s' = isVisible s ∧ opts s' = opts s.
Proof.
  revert s. induction n as [|n IH]; intros s; cbn [rerender]; [done|].
  destruct (commit env s) as [[s1 us]|] eqn:E; [|done]. cbn.
  apply commit_frame in E as (Hv & Ho & _).
  case_decide; [by intros [= <-]|].
  intros (-> & ->)%IH. done.
Qed.

Lemma callback_arguments e s s' :
  is_callback e = true → step env e s = Ok s' →
  isVisible s' = isVisible s ∧ opts s' = opts s.
Proof.
  destruct e; [done| |]; intros _; cbn [step];
    unfold fire_timeout, fire_frame, dispatch.
  all: repeat case_match; try by intros [= <-].
  all: by intros (-> & ->)%rerender_arguments.
Qed.

Lemma step_no_new_handles e s s' :
  committed s → step env e s = Ok s' → no_new_handles s s'.
Proof.
  destruct e; cbn [step]; intros Hc Hs;
    [eapply evaluate_no_new_handles | eapply fire_timeout_no_new_handles
    | eapply fire_frame_no_new_handles]; eassumption.
Qed.

Lemma run_committed es s s' : committed s → run env es s = Ok s' → committed s'.
Proof.
  revert s. induction es as [|e es IH]; intros s Hc; cbn [run].
  - by intros [= <-].
  - destruct (step env e s) as [s1|] eqn:E; [|done]. cbn.
    apply IH. by eapply committed_step.
Qed.

Lemma run_reachable es s s' : reachable env s → run env es s = Ok s' → reachable env s'.
Proof.
  revert s. induction es as [|e es IH]; intros s Hr; cbn [run].
  - by intros [= <-].
  - destruct (step env e s) as [s1|] eqn:E; [|done]. cbn.
    apply IH. by eapply reachable_step.
Qed.

(** A frame handle below the counter that is not pending never fires later:
    the counter only grows and new handles are taken from it. *)
Lemma run_frame_stays_cancelled es s s' k :
  committed s → run env es s = Ok s' →
  (k < nextFrame (window s))%nat → frames (window s) !! k = None →
  frames (window s') !! k = None.
Proof.
  revert s. induction es as [|e es IH]; intros s Hc; cbn [run].
  - by intros [= <-].
  - destruct (step env e s) as [s1|] eqn:E; [|done]. cbn.
    intros Hrun Hk Hnone.
    destruct (step_no_new_handles _ _ _ Hc E) as (Hnf & _ & Hfr & _).
    apply (IH s1); [by eapply committed_step|done|lia|].
    destruct (frames (window s1) !! k) eqn:Ek; [|done].
    destruct (Hfr k) as [[? ?]|?]; [by eexists|congruence|lia].
Qed.

Lemma run_timeout_stays_cancelled es s s' k :
  committed s → run env es s = Ok s' →
  (k < nextTimeout (window s))%nat → timers (window s) !! k = None →
  timers (window s') !! k = None.
Proof.
  revert s. induction es as [|e es IH]; intros s Hc; cbn [run].
  - by intros [= <-].
  - destruct (step env e s) as [s1|] eqn:E; [|done]. cbn.
    intros Hrun Hk Hnone.
    destruct (step_no_new_handles _ _ _ Hc E) as (_ & Hnt & _ & Htm).
    apply (IH s1); [by eapply committed_step|done|lia|].
    destruct (timers (window s1) !! k) eqn:Ek; [|done].
    destruct (Htm k) as [[? ?]|?]; [by eexists|congruence|lia].
Qed.

(** While only callbacks run, a hidden target stays hidden. *)
Lemma run_callbacks_arguments es s s' :
  forallb is_callback es = true → run env es s = Ok s' →
  isVisible s' = isVisible s ∧ opts s' = opts s.
Proof.
  revert s. induction es as [|e es IH]; intros s; cbn [run forallb].
  - by intros _ [= <-].
  - intros [He Hes]%andb_prop.
    destruct (step env e s) as [s1|] eqn:E; [|done]. cbn.
    intros (-> & ->)%IH; [|done]. by eapply callback_arguments.
Qed.
End Runs.

(** In a browser no operation throws. *)
Lemma evaluate_total v o s : committed s → ∃ s', evaluate browser v o s = Ok s'.
Proof.
  intros Hc. destruct (evaluate browser v o s) as [s1|err] eqn:Hs; [by eexists|].
  exfalso. unfold evaluate in Hs. committed_cases s Hc.
  all: match type of Hs with
       | context [memo1 (mkHook _ ?o0 _ _ _ _ _)] => compare_durations o o0 Hs
       end.
  all: destruct v; exec_in Hs; discriminate Hs.
Qed.

Lemma fire_timeout_total id s : committed s → ∃ s', fire_timeout browser id s = Ok s'.
Proof.
  intros Hc. destruct (fire_timeout browser id s) as [s1|err] eqn:Hs; [by eexists|].
  exfalso. unfold fire_timeout in Hs. committed_cases s Hc.
  all: cbn in Hs; rewrite ?lookup_empty, ?lookup_singleton in Hs.
  all: try case_decide; subst; unfold dispatch in Hs.
  all: exec_in Hs; discriminate Hs.
Qed.

Lemma fire_frame_total id s : committed s → ∃ s', fire_frame browser id s = Ok s'.
Proof.
  intros Hc. destruct (fire_frame browser id s) as [s1|err] eqn:Hs; [by eexists|].
  exfalso. unfold fire_frame in Hs. committed_cases s Hc.
  all: cbn in Hs; rewrite ?lookup_empty, ?lookup_singleton in Hs.
  all: try case_decide; subst; unfold dispatch in Hs.
  all: exec_in Hs; discriminate Hs.
Qed.

Lemma step_total e s : committed s → ∃ s', step browser e s = Ok s'.
Proof.
  destruct e; cbn [step];
    auto using evaluate_total, fire_timeout_total, fire_frame_total.
Qed.

Lemma mount_total v o : ∃ s, mount browser v o = Ok s.
Proof.
  destruct (mount browser v o) as [s|err] eqn:Hs; [by eexists|exfalso].
  unfold mount in Hs.
  destruct v, (initialEnter_of o) eqn:Hie;
    unfold initial_flags in Hs; rewrite Hie in Hs;
    exec_in Hs; discriminate Hs.
Qed.

(** ** The sample states are states of the hook *)

Lemma sample_hidden_mounts : mount browser false shared100 = Ok sample_hidden.
Proof. vm_compute. reflexivity. Qed.

Lemma reachable_run env v o es s0 s :
  mount env v o = Ok s0 → run env es s0 = Ok s → reachable env s.
Proof. intros Hm. apply run_reachable. by eapply reachable_mount. Qed.

Lemma sample_entered_reachable : reachable browser sample_entered.
Proof.
  apply (reachable_mount browser true shared100). vm_compute. reflexivity.
Qed.

Lemma sample_pre_entry_reachable : reachable browser sample_pre_entry.
Proof.
  apply (reachable_run browser false shared100 [Evaluate true shared100]
           sample_hidden); vm_compute; reflexivity.
Qed.

Lemma sample_entering_reachable : reachable browser sample_entering.
Proof.
  apply (reachable_run browser false separate50_200
           [Evaluate true separate50_200; FireFrame 0]
           (mkHook false separate50_200 (mkFlags false false false)
              (Some ([DepBool false; DepNumber (Some 200)], Some (ClearTimeout 0)))
              (Some ([DepBool false; DepNumber (Some 50); DepBool false;
                      DepBool false], None))
              (Some ([DepBool false; DepNumber (Some 50); DepBool false], None))
              (mkWindow {[ 0%nat := (setIsMounted false, Some 200) ]} 1 ∅ 0 0)));
    vm_compute; reflexivity.
Qed.

(** ** Scenarios *)

(** The separate durations in isolation: the enter timer carries 50, and
    after the target is hidden the exit timer carries 200. *)
Example separate_durations :
  timers (window sample_entering) !! 1%nat = Some (setHasEntered true, Some 50) ∧
  step browser (Evaluate false separate50_200) sample_entering = Ok sample_exiting ∧
  timers (window sample_exiting) !! 2%nat = Some (setIsMounted false, Some 200).
Proof. repeat split; vm_compute; reflexivity. Qed.

(** The paint callback requested before the target was hidden again does not
    run: firing its handle changes nothing, and only the exit timer is left. *)
Example cancelled_paint_callback :
  ∃ s, evaluate browser false shared100 sample_pre_entry = Ok s ∧
       frames (window s) !! 0%nat = None ∧
       fire_frame browser 0 s = Ok s ∧
       timers (window s) !! 1%nat = Some (setIsMounted false, Some 100) ∧
       animateIsVisible (flags s) = false.
Proof. eexists. repeat split; vm_compute; reflexivity. Qed.

(** The call that makes the target visible returns the cells as they were
    before its effects ran; [isMounted] is [true] from the render that
    follows the first effect's update, which React carries out before any
    timer or paint callback. *)
Example call_returns_before_effects :
  Out.isMounted (usePresence_return true (flags sample_hidden)) = false ∧
  evaluate browser true shared100 sample_hidden = Ok sample_pre_entry ∧
  Out.isMounted (observe sample_pre_entry) = true.
Proof. repeat split; vm_compute; reflexivity. Qed.

(** Without a [document] the reflow step throws as soon as the hook has to
    animate in. *)
Example no_document_throws :
  mount no_dom true (mkOpts (Some 100) None None (Some true)) = Err ReferenceError.
Proof. vm_compute. reflexivity. Qed.

(** * The claims *)

(** With every call and every callback rendered to the end before the next
    callback runs (the states of [run]): after the first call and any
    sequence of later calls and fired timer or paint callbacks, a state in
    which [isMounted] is [false] also has [animateIsVisible] and [hasEntered]
    equal to [false].  With one render at a time this fails, see the last
    part of the file. *)
Theorem unmounted_is_fully_exited env v o es s0 s :
  mount env v o = Ok s0 → run env es s0 = Ok s →
  isMounted (flags s) = false →
  animateIsVisible (flags s) = false ∧ hasEntered (flags s) = false.
Proof.
  intros Hm Hrun HM.
  assert (committed s) as ((Hhid & Hunm) & _).
  { eapply run_committed; [|exact Hrun]. by eapply committed_mount. }
  auto.
Qed.

Lemma unmounted_is_fully_exited_witness :
  mount browser false shared100 = Ok sample_hidden ∧
  run browser [Evaluate true shared100; FireFrame 0; Evaluate false shared100;
               FireTimeout 2] sample_hidden = Ok sample_unmounted ∧
  isMounted (flags sample_unmounted) = false ∧
  animateIsVisible (flags sample_unmounted) = false ∧
  hasEntered (flags sample_unmounted) = false.
Proof.
  assert (run browser [Evaluate true shared100; FireFrame 0;
                       Evaluate false shared100; FireTimeout 2] sample_hidden
          = Ok sample_unmounted) as Hrun by (vm_compute; reflexivity).
  split; [exact sample_hidden_mounts|]. split; [exact Hrun|].
  split; [reflexivity|].
  exact (unmounted_is_fully_exited browser false shared100 _ sample_hidden
           sample_unmounted sample_hidden_mounts Hrun eq_refl).
Defined.

(** Claim C2.  For every state of the cells and every target [isVisible],
    the derived outputs [isEntering] (= [isVisible && !hasEntered]) and
    [isExiting] (= [isMounted && !isVisible]) are not both [true]. *)
Theorem entering_exiting_exclusive v f :
  Out.isEntering (usePresence_return v f) && Out.isExiting (usePresence_return v f)
  = false.
Proof. destruct v, f as [[] [] []]; reflexivity. Qed.



(** Claim C4.  From the entered state (all three cells [true]) the call
    with target [false] and [{transitionDuration: 100}] sets [hasEntered] and
    [animateIsVisible] to [false], so that the output is [isVisible = false],
    [isExiting = true], [isMounted = true], with the exit timer of 100 ms as
    the only pending work; once that timer has run, [isMounted = false] and
    [isExiting = false]. *)
Theorem exit_then_unmount s :
  reachable browser s → flags s = mkFlags true true true →
  ∃ s1, evaluate browser false (mkOpts (Some 100) None None None) s = Ok s1 ∧
    animateIsVisible (flags s1) = false ∧
    hasEntered (flags s1) = false ∧
    Out.isVisible (observe s1) = false ∧
    Out.isExiting (observe s1) = true ∧
    Out.isMounted (observe s1) = true ∧
    frames (window s1) = ∅ ∧
    ∃ t, timers (window s1) = {[ t := (setIsMounted false, Some 100) ]} ∧
    ∃ s2, fire_timeout browser t s1 = Ok s2 ∧
      Out.isMounted (observe s2) = false ∧
      Out.isExiting (observe s2) = false.
Proof.
  intros Hc%reachable_committed HF.
  set (o := mkOpts (Some 100) None None None).
  committed_cases s Hc; try discriminate HF; clear HF.
  all: next_result E1; unfold evaluate in E1.
  all: match type of E1 with
       | context [memo1 (mkHook _ ?o0 _ _ _ _ _)] => compare_durations o o0 E1
       end.
  all: exec_in E1; simplify_eq; take_result; facts; take_handle.
  all: next_result E2; fire_in E2; take_result; facts; done.
Qed.

Lemma exit_then_unmount_witness :
  reachable browser sample_entered ∧
  flags sample_entered = mkFlags true true true ∧
  ∃ s1, evaluate browser false shared100 sample_entered = Ok s1 ∧
        Out.isExiting (observe s1) = true.
Proof.
  split; [exact sample_entered_reachable|]. split; [reflexivity|].
  destruct (exit_then_unmount sample_entered sample_entered_reachable eq_refl)
    as (s1 & H1 & _ & _ & _ & He & _).
  exists s1. auto.
Defined.

(** Claim C5.  On the first call with target [v0] and options [o] the
    cells are [isMounted = v0] and [animateIsVisible = hasEntered =
    (initialEnter ? false : v0)], and the effects of the first commit leave
    them so.  With target [true] and [initialEnter = false] the hook returns
    [isMounted = true], [isVisible = true], [isAnimating = false]; with
    target [true] and [initialEnter = true] it returns [isMounted = true],
    [isVisible = false], [isEntering = true]. *)
Theorem initial_state v0 o :
  let ie := initialEnter_of o in
  initial_flags v0 o =
    {| animateIsVisible := if ie then false else v0;
       isMounted := v0;
       hasEntered := if ie then false else v0 |} ∧
  (∃ s, mount browser v0 o = Ok s ∧ flags s = initial_flags v0 o ∧
        isVisible s = v0 ∧
        observe s = Out.mk v0 (if ie then false else v0)
                           (v0 && ie) (v0 && ie) false) ∧
  (∃ s, mount browser true (mkOpts (transitionDuration o)
                              (enterTransitionDuration o)
                              (exitTransitionDuration o) (Some false)) = Ok s ∧
        observe s = Out.mk true true false false false ∧
        hasEntered (flags s) = true) ∧
  (∃ s, mount browser true (mkOpts (transitionDuration o)
                              (enterTransitionDuration o)
                              (exitTransitionDuration o) (Some true)) = Ok s ∧
        observe s = Out.mk true false true true false).
Proof.
  cbn zeta. split; [reflexivity|]. split; [|split].
  - destruct (mount browser v0 o) as [s|] eqn:Hs;
      [|by destruct (mount_total v0 o) as [? ?]; congruence].
    exists s. split; [done|]. unfold mount in Hs.
    destruct v0, (initialEnter_of o) eqn:Hie;
      unfold initial_flags in *; rewrite ?Hie in *;
      exec_in Hs; simplify_eq; done.
  - set (o' := mkOpts _ _ _ _).
    destruct (mount browser true o') as [s|] eqn:Hs;
      [|by destruct (mount_total true o') as [? ?]; congruence].
    exists s. split; [done|]. unfold mount, initial_flags in Hs; cbn in Hs.
    exec_in Hs; simplify_eq; done.
  - set (o' := mkOpts _ _ _ _).
    destruct (mount browser true o') as [s|] eqn:Hs;
      [|by destruct (mount_total true o') as [? ?]; congruence].
    exists s. split; [done|]. unfold mount, initial_flags in Hs; cbn in Hs.
    exec_in Hs; simplify_eq; done.
Qed.

(** With every call and every callback rendered to the end before the next
    callback runs (the states of [run]): when the target goes from visible to
    hidden, every callback pending at that moment is superseded: afterwards
    no animation frame is
    pending, the only timeout is the new exit timer, whose handle is fresh,
    and no handle that was pending before (paint callback or enter timer) is
    ever pending again, whatever happens later.  As long as only callbacks
    run, [animateIsVisible] and [hasEntered] stay [false]. *)
Theorem superseded_callbacks_never_fire env s o :
  reachable env s → isVisible s = true →
  ∃ s', evaluate env false o s = Ok s' ∧
    animateIsVisible (flags s') = false ∧
    frames (window s') = ∅ ∧
    (∃ t, timers (window s') =
            {[ t := (setIsMounted false, exitTransitionDuration_of o) ]} ∧
          timers (window s) !! t = None) ∧
    (∀ es s'' k, run env es s' = Ok s'' →
       is_Some (frames (window s) !! k) → frames (window s'') !! k = None) ∧
    (∀ es s'' id, run env es s' = Ok s'' →
       is_Some (timers (window s) !! id) → timers (window s'') !! id = None) ∧
    (∀ es s'', forallb is_callback es = true → run env es s' = Ok s'' →
       animateIsVisible (flags s'') = false ∧ hasEntered (flags s'') = false).
Proof.
  intros Hc%reachable_committed HV.
  destruct (evaluate env false o s) as [s'|err] eqn:E.
  - pose proof (committed_evaluate _ _ _ _ _ Hc E) as Hc'.
    pose proof E as E'. unfold evaluate in E'.
    committed_cases s Hc; try discriminate HV; clear HV.
    all: match type of E' with
         | context [memo1 (mkHook _ ?o0 _ _ _ _ _)] => compare_durations o o0 E'
         end.
    all: destruct env as [[]]; exec_in E'; simplify_eq; take_result.
    all: split; [done|]. all: split; [done|].
    all: split; [eexists; split; [reflexivity|];
                 rewrite ?lookup_empty, ?lookup_singleton_ne by lia; done|].
    all: split; [|split].
    all: try (intros es s'' k Hrun [cb Hk]; cbn in Hk;
              rewrite ?lookup_empty in Hk; try discriminate Hk;
              apply lookup_singleton_Some in Hk as [<- _]).
    all: try (eapply run_frame_stays_cancelled; [exact Hc'|exact Hrun|cbn; lia|];
              cbn; by rewrite lookup_empty).
    all: try (eapply run_timeout_stays_cancelled; [exact Hc'|exact Hrun|cbn; lia|];
              cbn; rewrite lookup_singleton_ne by lia; done).
    all: intros es s'' Hes Hrun;
      destruct (run_callbacks_arguments _ _ _ _ Hes Hrun) as [HV' _];
      destruct (run_committed _ _ _ _ Hc' Hrun) as ((Hhid & _) & _);
      apply Hhid; rewrite HV'; reflexivity.
  - exfalso. unfold evaluate in E.
    committed_cases s Hc; try discriminate HV.
    all: match type of E with
         | context [memo1 (mkHook _ ?o0 _ _ _ _ _)] => compare_durations o o0 E
         end.
    all: destruct env as [[]]; exec_in E; discriminate E.
Qed.

Lemma superseded_callbacks_never_fire_witness :
  reachable browser sample_pre_entry ∧
  isVisible sample_pre_entry = true ∧
  ∃ s', evaluate browser false shared100 sample_pre_entry = Ok s' ∧
        frames (window s') = ∅.
Proof.
  split; [exact sample_pre_entry_reachable|]. split; [reflexivity|].
  destruct (superseded_callbacks_never_fire browser sample_pre_entry shared100
              sample_pre_entry_reachable eq_refl) as (s' & H1 & _ & Hf & _).
  exists s'. auto.
Defined.

(** Claim C7.  In every state of the hook each pending timeout is the enter
    timer, carrying the resolved enter duration, or the exit timer, carrying
    the resolved exit duration, of the latest call; the enter timer is
    pending while the hook is animating in and the exit timer while it is
    mounted with a hidden target.  The resolved durations are
    [enterTransitionDuration] and [exitTransitionDuration] when the options
    have no [transitionDuration], and [transitionDuration] otherwise. *)
Theorem timers_use_resolved_durations env s :
  reachable env s →
  (∀ id cb d, timers (window s) !! id = Some (cb, d) →
     (cb = setHasEntered true ∧ d = enterTransitionDuration_of (opts s)) ∨
     (cb = setIsMounted false ∧ d = exitTransitionDuration_of (opts s))) ∧
  (animateIsVisible (flags s) = true → hasEntered (flags s) = false →
   ∃ id, timers (window s) !! id =
           Some (setHasEntered true, enterTransitionDuration_of (opts s))) ∧
  (isVisible s = false → isMounted (flags s) = true →
   ∃ id, timers (window s) !! id =
           Some (setIsMounted false, exitTransitionDuration_of (opts s))) ∧
  (transitionDuration (opts s) = None →
   enterTransitionDuration_of (opts s) = enterTransitionDuration (opts s) ∧
   exitTransitionDuration_of (opts s) = exitTransitionDuration (opts s)) ∧
  (∀ t, transitionDuration (opts s) = Some t →
   enterTransitionDuration_of (opts s) = Some t ∧
   exitTransitionDuration_of (opts s) = Some t).
Proof.
  intros Hc%reachable_committed.
  split; [|split; [|split; [|split]]].
  - intros id cb d. committed_cases s Hc; cbn.
    all: rewrite ?lookup_empty, ?lookup_singleton; try case_decide.
    all: intros [=]; subst; auto.
  - committed_cases s Hc; cbn; intros [=] [=].
    eexists. apply lookup_singleton_eq.
  - committed_cases s Hc; cbn; intros [=] [=].
    eexists. apply lookup_singleton_eq.
  - unfold enterTransitionDuration_of, exitTransitionDuration_of, isSharedConfig.
    by intros ->.
  - unfold enterTransitionDuration_of, exitTransitionDuration_of, isSharedConfig.
    by intros t ->.
Qed.

Lemma timers_use_resolved_durations_witness :
  reachable browser sample_entering ∧
  ∃ id, timers (window sample_entering) !! id = Some (setHasEntered true, Some 50).
Proof.
  split; [exact sample_entering_reachable|].
  exact (proj1 (proj2 (timers_use_resolved_durations browser sample_entering
                         sample_entering_reachable)) eq_refl eq_refl).
Defined.

(** Claim C8 does not hold of the code: the configuration with
    [transitionDuration = -5] is misuse in the words of the spec, yet the
    first call succeeds and the exit timer is started with the delay -5. *)
Lemma negative_duration_is_accepted :
  spec_misuse negative5 = true ∧
  mount browser false negative5 = Ok sample_negative ∧
  timers (window sample_negative) !! 0%nat = Some (setIsMounted false, Some (-5)).
Proof. repeat split; vm_compute; reflexivity. Qed.

(** Claim C8, amended.  No configuration is rejected: in a browser the
    first call and every later call succeed for every options object, with
    negative durations and absent duration fields included, and the duration
    handed to the timer is the one read from the options, unchanged (an
    absent field reads as undefined). *)
Theorem configuration_is_never_rejected :
  (∀ v o, ∃ s, mount browser v o = Ok s) ∧
  (∀ s v o, reachable browser s → ∃ s', evaluate browser v o s = Ok s') ∧
  (∀ o, ∃ s, mount browser false o = Ok s ∧
     timers (window s) =
       {[ 0%nat := (setIsMounted false, exitTransitionDuration_of o) ]}) ∧
  (∀ d e x ie,
     enterTransitionDuration_of (mkOpts (Some d) e x ie) = Some d ∧
     exitTransitionDuration_of (mkOpts (Some d) e x ie) = Some d) ∧
  (∀ e x ie,
     enterTransitionDuration_of (mkOpts None e x ie) = e ∧
     exitTransitionDuration_of (mkOpts None e x ie) = x).
Proof.
  split; [exact mount_total|]. split; [|split; [|split]].
  - intros s v o Hc%reachable_committed. by apply evaluate_total.
  - intros o. destruct (mount browser false o) as [s|] eqn:Hs;
      [|by destruct (mount_total false o) as [? ?]; congruence].
    exists s. split; [done|]. unfold mount in Hs.
    destruct (initialEnter_of o) eqn:Hie;
      unfold initial_flags in Hs; rewrite Hie in Hs;
      exec_in Hs; simplify_eq; done.
  - done.
  - done.
Qed.

Lemma configuration_is_never_rejected_witness :
  reachable browser sample_hidden ∧
  ∃ s', evaluate browser true negative5 sample_hidden = Ok s'.
Proof.
  assert (reachable browser sample_hidden) as Hr
    by exact (reachable_mount _ _ _ _ sample_hidden_mounts).
  split; [exact Hr|].
  exact (proj1 (proj2 configuration_is_never_rejected)
           sample_hidden true negative5 Hr).
Defined.

(** Claim C9.  In every environment, with or without a [document], the
    guard [typeof document !== undefined] is [true], so the reflow step
    always reads [document.body.offsetHeight]: it forces the layout flush
    where a document exists and throws where none does. *)
Theorem reflow_guard_always_true env w :
  reflow_guard env = true ∧
  force_reflow env w = document_body_offsetHeight env w ∧
  force_reflow no_dom w = Err ReferenceError ∧
  force_reflow browser w =
    Ok (mkWindow (timers w) (nextTimeout w) (frames w) (nextFrame w)
                 (S (reflows w))).
Proof.
  rewrite !force_reflow_reads. auto using reflow_guard_holds.
Qed.

(** Claim C10.  For an options object with a [transitionDuration] field,
    the resolved enter and exit durations both equal it, whatever
    [enterTransitionDuration] and [exitTransitionDuration] the object also
    carries; the exit timer of the first call is started with it. *)
Theorem shared_duration_takes_precedence t e x ie :
  let o := mkOpts (Some t) e x ie in
  isSharedConfig o = true ∧
  enterTransitionDuration_of o = Some t ∧
  exitTransitionDuration_of o = Some t ∧
  ∃ s, mount browser false o = Ok s ∧
       timers (window s) = {[ 0%nat := (setIsMounted false, Some t) ]}.
Proof.
  cbn zeta. repeat split; try reflexivity.
  set (o := mkOpts _ _ _ _).
  destruct (mount browser false o) as [s|] eqn:Hs;
    [|by destruct (mount_total false o) as [? ?]; congruence].
  exists s. split; [done|]. unfold mount in Hs.
  destruct (initialEnter_of o) eqn:Hie;
    unfold initial_flags in Hs; rewrite Hie in Hs;
    exec_in Hs; simplify_eq; done.
Qed.

(** * Further properties of the hook *)

Ltac steady_cases s Hc Hst :=
  let H1 := fresh in let H2 := fresh in
  destruct Hst as [H1 H2];
  committed_cases s Hc; cbn in H1, H2;
  try (by specialize (H1 eq_refl)); clear H1; subst.

Ltac solve_steady :=
  unfold steady; cbn; split; [intros; congruence | reflexivity].

Section Steady.
Variable env : Env.

Lemma steady_mount v o s : mount env v o = Ok s → steady s.
Proof.
  intros Hs. unfold mount in Hs.
  destruct env as [[]], v, (initialEnter_of o) eqn:Hie;
    unfold initial_flags in Hs; rewrite Hie in Hs;
    exec_in Hs; simplify_eq; solve_steady.
Qed.

Lemma steady_evaluate v o s s' :
  committed s → steady s → evaluate env v o s = Ok s' → steady s'.
Proof.
  intros Hc Hst Hs. unfold evaluate in Hs.
  steady_cases s Hc Hst.
  all: match type of Hs with
       | context [memo1 (mkHook _ ?o0 _ _ _ _ _)] => compare_durations o o0 Hs
       end.
  all: destruct env as [[]], v; exec_in Hs; simplify_eq.
  all: solve_steady.
Qed.

Lemma steady_fire_timeout id s s' :
  committed s → steady s → fire_timeout env id s = Ok s' → steady s'.
Proof.
  intros Hc Hst Hs. unfold fire_timeout in Hs.
  steady_cases s Hc Hst.
  all: cbn in Hs; rewrite ?lookup_empty, ?lookup_singleton in Hs.
  all: try case_decide; subst; unfold dispatch in Hs.
  all: destruct env as [[]]; exec_in Hs; simplify_eq.
  all: solve_steady.
Qed.

Lemma steady_fire_frame id s s' :
  committed s → steady s → fire_frame env id s = Ok s' → steady s'.
Proof.
  intros Hc Hst Hs. unfold fire_frame in Hs.
  steady_cases s Hc Hst.
  all: cbn in Hs; rewrite ?lookup_empty, ?lookup_singleton in Hs.
  all: try case_decide; subst; unfold dispatch in Hs.
  all: destruct env as [[]]; exec_in Hs; simplify_eq.
  all: solve_steady.
Qed.

Lemma reachable_steady s : reachable env s → steady s.
Proof.
  induction 1 as [v o s Hm|e s s' Hr IH Hs]; [by eapply steady_mount|].
  pose proof (reachable_committed _ _ Hr) as Hc.
  destruct e; cbn [step] in Hs;
    [eapply steady_evaluate | eapply steady_fire_timeout
    | eapply steady_fire_frame]; eassumption.
Qed.
End Steady.

(** Property X1.  Teardown leaks nothing: in every state of the hook, once
    React has called the destructors of the three effects no timeout and no
    animation frame is pending, and no handle was issued meanwhile. *)
Theorem teardown_cancels_everything env s :
  reachable env s →
  timers (unmount s) = ∅ ∧ frames (unmount s) = ∅ ∧
  nextTimeout (unmount s) = nextTimeout (window s) ∧
  nextFrame (unmount s) = nextFrame (window s).
Proof.
  intros Hc%reachable_committed. unfold unmount.
  committed_cases s Hc; cbn.
  all: rewrite ?delete_singleton_eq, ?delete_empty; done.
Qed.

Lemma teardown_cancels_everything_witness :
  reachable browser sample_entering ∧
  timers (window sample_entering) !! 1%nat = Some (setHasEntered true, Some 50) ∧
  timers (unmount sample_entering) = ∅ ∧
  frames (unmount sample_entering) = ∅.
Proof.
  split; [exact sample_entering_reachable|]. split; [reflexivity|].
  destruct (teardown_cancels_everything browser sample_entering
              sample_entering_reachable) as (Ht & Hf & _).
  split; [exact Ht | exact Hf].
Defined.

(** Property X3.  Every request of an animation frame was preceded by one
    forced reflow and there is no other reflow: the number of reads of
    [document.body.offsetHeight] equals the number of frames requested. *)
Theorem one_reflow_per_frame_request env s :
  reachable env s → reflows (window s) = nextFrame (window s).
Proof. by intros [_ ?]%reachable_steady. Qed.

Lemma one_reflow_per_frame_request_witness :
  reachable browser sample_pre_entry ∧
  nextFrame (window sample_pre_entry) = 1%nat ∧
  reflows (window sample_pre_entry) = nextFrame (window sample_pre_entry).
Proof.
  split; [exact sample_pre_entry_reachable|]. split; [reflexivity|].
  exact (one_reflow_per_frame_request browser sample_pre_entry
           sample_pre_entry_reachable).
Defined.

(** Property X6.  Calling the hook again with the same target and the same
    resolved durations runs no effect: cells, pending callbacks and handles
    are untouched, whatever else the options object carries; in particular
    [initialEnter] is read at the first call only. *)
Theorem rerender_with_same_arguments_is_inert env s o :
  reachable env s →
  enterTransitionDuration_of o = enterTransitionDuration_of (opts s) →
  exitTransitionDuration_of o = exitTransitionDuration_of (opts s) →
  evaluate env (isVisible s) o s = Ok (with_opts o s).
Proof.
  intros Hc%reachable_committed Hen Hex.
  destruct (evaluate env (isVisible s) o s) as [s'|err] eqn:Hs;
    unfold evaluate in Hs; committed_cases s Hc; cbn in Hen, Hex |- *;
    rewrite <- ?Hen, <- ?Hex in Hs;
    exec_in Hs; simplify_eq; try done.
  all: by rewrite <- ?Hen, <- ?Hex.
Qed.

Lemma rerender_with_same_arguments_is_inert_witness :
  reachable browser sample_entering ∧
  evaluate browser true (mkOpts None (Some 50) (Some 200) (Some true))
    sample_entering
  = Ok (with_opts (mkOpts None (Some 50) (Some 200) (Some true)) sample_entering).
Proof.
  split; [exact sample_entering_reachable|].
  exact (rerender_with_same_arguments_is_inert browser sample_entering
           (mkOpts None (Some 50) (Some 200) (Some true))
           sample_entering_reachable eq_refl eq_refl).
Defined.

(** The comparison of two durations known to differ. *)
Ltac differ Hne :=
  match type of Hne with
  | ?x ≠ ?y =>
    let E := fresh in
    destruct (same_number x y) eqn:E;
    [apply bool_decide_eq_true in E; by destruct Hne|]
  end.

(** Whether the other duration is that of the previous render. *)
Ltac compare_other resolve o Hs :=
  match type of Hs with
  | context [memo1 (mkHook _ ?o0 _ _ _ _ _)] =>
    let E := fresh "E" in
    destruct (same_number (resolve o) (resolve o0)) eqn:E;
    [apply bool_decide_eq_true in E; rewrite <- E in Hs; clear E|]
  end.

(** Property X7.  While the entry is running, a call with a different
    enter duration clears the pending enter timer and starts a new one, under
    a new handle, with the new duration; the cells do not change. *)
Theorem changed_enter_duration_restarts_enter_timer env s o :
  reachable env s →
  animateIsVisible (flags s) = true → hasEntered (flags s) = false →
  enterTransitionDuration_of o ≠ enterTransitionDuration_of (opts s) →
  ∃ s', evaluate env true o s = Ok s' ∧
    flags s' = flags s ∧
    frames (window s') = ∅ ∧
    ∃ t, timers (window s') =
           {[ t := (setHasEntered true, enterTransitionDuration_of o) ]} ∧
         timers (window s) !! t = None.
Proof.
  intros Hc%reachable_committed HA HH Hne.
  committed_cases s Hc; try discriminate HA; try discriminate HH; clear HA HH.
  all: cbn in Hne; differ Hne.
  all: next_result Hs; unfold evaluate in Hs.
  all: compare_other exitTransitionDuration_of o Hs.
  all: destruct env as [[]]; exec_in Hs; simplify_eq; take_result.
  all: split; [done|]; split; [done|]; eexists; split; [reflexivity|].
  all: cbn; by rewrite lookup_singleton_ne by lia.
Qed.

Lemma changed_enter_duration_restarts_enter_timer_witness :
  reachable browser sample_entering ∧
  ∃ s', evaluate browser true (mkOpts None (Some 70) (Some 200) None)
          sample_entering = Ok s' ∧
        timers (window s') !! 2%nat = Some (setHasEntered true, Some 70) ∧
        timers (window s') !! 1%nat = None.
Proof.
  split; [exact sample_entering_reachable|].
  destruct (changed_enter_duration_restarts_enter_timer browser sample_entering
              (mkOpts None (Some 70) (Some 200) None)
              sample_entering_reachable eq_refl eq_refl)
    as (s' & Hs & _); [vm_compute; congruence|].
  exists s'. split; [exact Hs|].
  vm_compute in Hs. injection Hs as <-. split; reflexivity.
Defined.



(** Property X9.  Making the target visible again while the exit is running
    keeps the element mounted: the exit timer is cleared and never runs
    later, no timeout is pending, and the paint callback for the new entry is
    requested. *)
Theorem reentry_during_exit_keeps_mounted s o :
  reachable browser s →
  isVisible s = false → isMounted (flags s) = true →
  ∃ s', evaluate browser true o s = Ok s' ∧
    isMounted (flags s') = true ∧
    animateIsVisible (flags s') = false ∧
    timers (window s') = ∅ ∧
    (∃ k, frames (window s') = {[ k := setAnimateIsVisible true ]}) ∧
    (∀ es s'' id, run browser es s' = Ok s'' →
       is_Some (timers (window s) !! id) → timers (window s'') !! id = None).
Proof.
  intros Hc%reachable_committed HV HM.
  destruct (evaluate browser true o s) as [s'|err] eqn:E.
  - pose proof (committed_evaluate _ _ _ _ _ Hc E) as Hc'.
    pose proof E as E'. unfold evaluate in E'.
    committed_cases s Hc; try discriminate HV; try discriminate HM; clear HV HM.
    all: match type of E' with
         | context [memo1 (mkHook _ ?o0 _ _ _ _ _)] => compare_durations o o0 E'
         end.
    all: exec_in E'; simplify_eq; take_result.
    all: do 3 (split; [done|]).
    all: split; [eexists; reflexivity|].
    all: intros es s'' id Hrun [cb Hk]; cbn in Hk;
      apply lookup_singleton_Some in Hk as [<- _].
    all: eapply run_timeout_stays_cancelled;
      [exact Hc'|exact Hrun|cbn; lia|cbn; by rewrite lookup_empty].
  - exfalso. unfold evaluate in E.
    committed_cases s Hc; try discriminate HV; try discriminate HM.
    all: match type of E with
         | context [memo1 (mkHook _ ?o0 _ _ _ _ _)] => compare_durations o o0 E
         end.
    all: exec_in E; discriminate E.
Qed.

Lemma reentry_during_exit_keeps_mounted_witness :
  reachable browser sample_exiting ∧
  ∃ s', evaluate browser true separate50_200 sample_exiting = Ok s' ∧
        isMounted (flags s') = true ∧ timers (window s') = ∅.
Proof.
  assert (reachable browser sample_exiting) as Hr.
  { apply (reachable_step browser (Evaluate false separate50_200)
             sample_entering); [exact sample_entering_reachable|].
    vm_compute. reflexivity. }
  split; [exact Hr|].
  destruct (reentry_during_exit_keeps_mounted sample_exiting separate50_200
              Hr eq_refl eq_refl) as (s' & Hs & HM & _ & Ht & _).
  exists s'. auto.
Defined.

Lemma run_singleton env e s : run env [e] s = step env e s.
Proof. cbn [run]. by destruct (step env e s). Qed.

Lemma run_pair env e1 e2 s :
  run env [e1; e2] s = s1 ← step env e1 s; step env e2 s1.
Proof.
  cbn [run]. destruct (step env e1 s) as [s1|]; [|done]. cbn.
  by destruct (step env e2 s1).
Qed.

(** Property X5.  In a browser the hook is never stuck: from every state,
    letting at most two pending callbacks run leads to a state with nothing
    pending and no animation reported, the target unchanged. *)
Theorem settles_within_two_callbacks s :
  reachable browser s →
  ∃ es, (length es ≤ 2)%nat ∧ forallb is_callback es = true ∧
    ∃ s', run browser es s = Ok s' ∧
      timers (window s') = ∅ ∧ frames (window s') = ∅ ∧
      Out.isAnimating (observe s') = false ∧
      isVisible s' = isVisible s.
Proof.
  intros Hr.
  pose proof (reachable_committed _ _ Hr) as Hc.
  pose proof (reachable_steady _ _ Hr) as Hst. clear Hr.
  steady_cases s Hc Hst.
  all: first
    [ exists []; split; [cbn; lia|]; split; [done|];
      eexists; split; [reflexivity|]; cbn; done
    | match goal with
      | H : (?x < _)%nat |- _ =>
        exists [FireTimeout x]; split; [cbn; lia|]; split; [done|];
        rewrite run_singleton; cbn [step];
        let E := fresh in next_result E; fire_in E; take_result; done
      end
    | match goal with
      | H : (?x < _)%nat |- context [mkWindow _ ?nt _ _ _] =>
        exists [FireFrame x; FireTimeout nt]; split; [cbn; lia|];
        split; [done|];
        rewrite run_pair; cbn [step];
        match goal with
        | |- context [fire_frame browser x ?S] =>
          let E := fresh in let K := fresh in
          destruct (fire_frame browser x S) as [?|?] eqn:E;
          pose proof E as K; fire_in E; clear K
        end;
        cbn [mbind result_bind];
        let E := fresh in next_result E; fire_in E; take_result; done
      end ].
Qed.

Lemma settles_within_two_callbacks_witness :
  reachable browser sample_pre_entry ∧
  ∃ es, (length es ≤ 2)%nat ∧ forallb is_callback es = true ∧
    ∃ s', run browser es sample_pre_entry = Ok s' ∧
      timers (window s') = ∅ ∧ frames (window s') = ∅ ∧
      Out.isAnimating (observe s') = false.
Proof.
  split; [exact sample_pre_entry_reachable|].
  destruct (settles_within_two_callbacks sample_pre_entry
              sample_pre_entry_reachable)
    as (es & Hlen & Hcb & s' & Hrun & Ht & Hf & Ha & _).
  exists es. split; [exact Hlen|]. split; [exact Hcb|].
  exists s'. auto.
Defined.

Lemma commit_error env s e :
  commit env s = Err e → e = ReferenceError ∧ hasDocument env = false.
Proof.
  unfold commit, effect2, force_reflow, document_body_offsetHeight,
    mbind, result_bind.
  intros H. repeat case_match; simplify_eq/=; done.
Qed.

(** Property X10.  The state updates of the effects never cascade: from any
    memory of the hook, rendering settles within two renders, so React's
    limit on nested updates is never reached; the only failure is the
    [ReferenceError] of an environment without [document]. *)
Theorem effects_never_loop env s n :
  rerender (S (S n)) env s = rerender 2 env s ∧
  ((∃ s', rerender (S (S n)) env s = Ok s') ∨
   (rerender (S (S n)) env s = Err ReferenceError ∧ hasDocument env = false)).
Proof.
  split; [apply rerender_two|]. rewrite rerender_two.
  cbn [rerender]. destruct (commit env s) as [[s1 us]|e] eqn:E1; cbn.
  2:{ right. by apply commit_error in E1 as [-> ?]. }
  case_decide as Hf; [left; by eexists|].
  pose proof (commit_frame _ _ _ _ E1) as (Hv & Ho & _ & Hd).
  set (s2 := mkHook _ _ _ _ _ _ _).
  assert (depsChanged (memo1 s2) (deps1 s2) = false) as Hd2.
  { subst s2. cbn in *. by rewrite Hv, Ho. }
  destruct (commit env s2) as [[s3 us3]|e] eqn:E2; cbn.
  2:{ right. by apply commit_error in E2 as [-> ?]. }
  apply (commit_no_update _ _ _ _ Hd2) in E2 as ->. cbn.
  left. case_decide; [by eexists|done].
Qed.

(** Property X11.  Where no [document] is declared, every call that makes a
    hidden target visible throws a [ReferenceError]: the reflow guard lets
    the read of [document] through. *)
Theorem without_document_entering_throws s o :
  reachable no_dom s → isVisible s = false →
  evaluate no_dom true o s = Err ReferenceError.
Proof.
  intros Hc%reachable_committed HV.
  destruct (evaluate no_dom true o s) as [s'|err] eqn:Hs;
    unfold evaluate in Hs; committed_cases s Hc; try discriminate HV; clear HV.
  all: match type of Hs with
       | context [memo1 (mkHook _ ?o0 _ _ _ _ _)] => compare_durations o o0 Hs
       end.
  all: exec_in Hs; simplify_eq; done.
Qed.

Lemma without_document_entering_throws_witness :
  reachable no_dom sample_hidden ∧
  isVisible sample_hidden = false ∧
  evaluate no_dom true shared100 sample_hidden = Err ReferenceError.
Proof.
  assert (reachable no_dom sample_hidden) as Hr.
  { apply (reachable_mount no_dom false shared100). vm_compute. reflexivity. }
  split; [exact Hr|]. split; [reflexivity|].
  exact (without_document_entering_throws sample_hidden shared100 Hr eq_refl).
Defined.

(** Property X12.  A first call with a hidden target mounts nothing and yet
    starts the exit timer; when that timer runs, neither the cells nor the
    outputs change and nothing is left pending. *)
Theorem hidden_first_call_starts_exit_timer env o :
  ∃ s, mount env false o = Ok s ∧
    flags s = mkFlags false false false ∧
    frames (window s) = ∅ ∧
    timers (window s) =
      {[ 0%nat := (setIsMounted false, exitTransitionDuration_of o) ]} ∧
    ∃ s', fire_timeout env 0 s = Ok s' ∧
      flags s' = flags s ∧ observe s' = observe s ∧
      timers (window s') = ∅ ∧ frames (window s') = ∅.
Proof.
  next_result Hs; unfold mount in Hs.
  all: destruct env as [[]], (initialEnter_of o) eqn:Hie;
    unfold initial_flags in Hs; rewrite Hie in Hs;
    exec_in Hs; simplify_eq; take_result.
  all: do 3 (split; [done|]).
  all: next_result Hs; fire_in Hs; take_result; done.
Qed.

(** * Properties of the bundler configuration *)

Lemma findIndex_Some f l j :
  findIndex f l = Some j →
  ∃ p, l !! j = Some p ∧ f p = true ∧
       ∀ k q, (k < j)%nat → l !! k = Some q → f q = false.
Proof.
  revert j. induction l as [|x l IH]; intros j; cbn; [done|].
  destruct (f x) eqn:Hx.
  - intros [= <-]. exists x. repeat split; [done|]. intros; lia.
  - destruct (findIndex f l) as [i|]; [|done]. cbn. intros [= <-].
    destruct (IH i eq_refl) as (p & Hp & Hfp & Hlt).
    exists p. repeat split; [done..|].
    intros [|k] q Hk; cbn; [by intros [= <-]|]. apply Hlt. lia.
Qed.

Lemma findIndex_None f l :
  findIndex f l = None → ∀ k q, l !! k = Some q → f q = false.
Proof.
  induction l as [|x l IH]; cbn; [done|].
  destruct (f x) eqn:Hx; [done|].
  destruct (findIndex f l); [done|]. intros _ [|k] q; cbn.
  - by intros [= <-].
  - by apply IH.
Qed.

Lemma includes_elem_of l id : includes l id = true ↔ id ∈ l.
Proof.
  unfold includes. rewrite existsb_exists. split.
  - intros (x & Hx & ->%String.eqb_eq). by apply list_elem_of_In.
  - intros Hx. exists id. split; [by apply list_elem_of_In|apply String.eqb_refl].
Qed.

(** Property X13.  After [rollup], each listed dependency is bundled
    whatever the previous [external] said, every other id is decided by the
    previous [external], so no id becomes external that was not, and
    applying [rollup] twice decides as applying it once. *)
Theorem rollup_bundles_listed_dependencies commonjs c id :
  (id ∈ bundled → external (rollup commonjs c) id = false) ∧
  (id ∉ bundled → external (rollup commonjs c) id = external c id) ∧
  (external (rollup commonjs c) id = true → external c id = true) ∧
  external (rollup commonjs (rollup commonjs c)) id
    = external (rollup commonjs c) id.
Proof.
  unfold rollup. cbn [external]. destruct (includes bundled id) eqn:Hin.
  - apply includes_elem_of in Hin.
    split; [done|]. split; [intros Hout; destruct (Hout Hin)|].
    split; [done|]. done.
  - assert (id ∉ bundled) as Hout by (rewrite <- includes_elem_of; congruence).
    split; [intros ?; by destruct Hout|]. split; [done|].
    split; [done|]. done.
Qed.

Lemma rollup_bundles_listed_dependencies_witness :
  ("query-string"%string ∈ bundled) ∧
  external sample_config "query-string" = true ∧
  external (rollup sample_commonjs sample_config) "query-string" = false ∧
  ("react"%string ∉ bundled) ∧
  external (rollup sample_commonjs sample_config) "react"
    = external sample_config "react".
Proof.
  destruct (rollup_bundles_listed_dependencies sample_commonjs sample_config
              "query-string") as (Hin & _).
  destruct (rollup_bundles_listed_dependencies sample_commonjs sample_config
              "react") as (_ & Hout & _).
  assert ("query-string"%string ∈ bundled) as H1
    by (apply includes_elem_of; reflexivity).
  assert ("react"%string ∉ bundled) as H2
    by (rewrite <- includes_elem_of; vm_compute; congruence).
  split; [exact H1|]. split; [reflexivity|]. split; [exact (Hin H1)|].
  split; [exact H2 | exact (Hout H2)].
Defined.

(** Property X14.  [rollup] puts the configured commonjs plugin in front and
    makes the array one longer.  If the array had a plugin named commonjs,
    the first such entry becomes [false] and every other entry keeps its
    value, one place further; if it had none, the entries are all kept and
    the assignment at index -1 only leaves a property named -1. *)
Theorem rollup_replaces_first_commonjs_plugin commonjs c :
  let before := items (plugins c) in
  let after := plugins (rollup commonjs c) in
  items after !! 0%nat = Some (commonjs commonjs_include) ∧
  length (items after) = S (length before) ∧
  match findIndex is_commonjs before with
  | Some j =>
    (∃ p, before !! j = Some p ∧ is_commonjs p = true) ∧
    items after !! S j = Some PluginFalse ∧
    (∀ k p, k ≠ j → before !! k = Some p → items after !! S k = Some p) ∧
    (∀ k p, (k < j)%nat → before !! k = Some p → is_commonjs p = false) ∧
    minus_one after = minus_one (plugins c)
  | None =>
    items after = commonjs commonjs_include :: before ∧
    (∀ k p, before !! k = Some p → is_commonjs p = false) ∧
    minus_one after = Some PluginFalse
  end.
Proof.
  cbn zeta. unfold rollup. cbn [plugins unshift items minus_one].
  destruct (findIndex is_commonjs (items (plugins c))) as [j|] eqn:Hj; cbn.
  - destruct (findIndex_Some _ _ _ Hj) as (p & Hp & Hfp & Hlt).
    assert (j < length (items (plugins c)))%nat as Hlen
      by (by eapply lookup_lt_Some).
    rewrite decide_True by done.
    split; [done|]. split; [by rewrite length_insert|].
    split; [by exists p|]. split; [by apply list_lookup_insert_eq|].
    split; [|split; [exact Hlt|done]].
    intros k q Hk Hq. change (<[j:=PluginFalse]> (items (plugins c)) !! k = Some q).
    by rewrite list_lookup_insert_ne.
  - split; [done|]. split; [done|]. split; [done|].
    split; [by apply findIndex_None|done].
Qed.

Lemma rollup_replaces_first_commonjs_plugin_witness :
  findIndex is_commonjs (items (plugins sample_config)) = Some 2%nat ∧
  items (plugins (rollup sample_commonjs sample_config)) !! 3%nat
    = Some PluginFalse ∧
  items (plugins (rollup sample_commonjs sample_config)) !! 1%nat
    = Some (PluginObject (Some "babel"%string) 7).
Proof.
  pose proof (rollup_replaces_first_commonjs_plugin sample_commonjs
                sample_config) as H.
  cbn zeta in H.
  change (findIndex is_commonjs (items (plugins sample_config)))
    with (Some 2%nat) in H.
  destruct H as (_ & _ & _ & Hfalse & Hkeep & _).
  split; [reflexivity|]. split; [exact Hfalse|].
  exact (Hkeep 0%nat _ ltac:(lia) eq_refl).
Defined.

Lemma count_commonjs_replaced l j :
  findIndex is_commonjs l = Some j →
  S (count_commonjs (<[j:=PluginFalse]> l)) = count_commonjs l.
Proof.
  unfold count_commonjs.
  revert j. induction l as [|x l IH]; intros j; cbn; [done|].
  destruct (is_commonjs x) eqn:Hx.
  - by intros [= <-].
  - destruct (findIndex is_commonjs l) as [i|]; [|done]. cbn. intros [= <-].
    cbn. rewrite Hx. by apply IH.
Qed.

Lemma count_commonjs_none l :
  findIndex is_commonjs l = None → count_commonjs l = 0%nat.
Proof.
  unfold count_commonjs. induction l as [|x l IH]; cbn; [done|].
  destruct (is_commonjs x) eqn:Hx; [done|].
  destruct (findIndex is_commonjs l); [done|]. intros _. by apply IH.
Qed.

(** Property X15.  Provided the factory names its plugin commonjs: after
    [rollup] the first commonjs plugin is the configured one, the number of
    commonjs plugins is that of before, or one if there was none, and a
    second [rollup] turns the plugin added by the first into [false]. *)
Theorem rollup_puts_configured_commonjs_first commonjs c :
  is_commonjs (commonjs commonjs_include) = true →
  findIndex is_commonjs (items (plugins (rollup commonjs c))) = Some 0%nat ∧
  count_commonjs (items (plugins (rollup commonjs c)))
    = Nat.max 1 (count_commonjs (items (plugins c))) ∧
  items (plugins (rollup commonjs (rollup commonjs c)))
    = commonjs commonjs_include :: PluginFalse ::
        tail (items (plugins (rollup commonjs c))).
Proof.
  intros Hcj.
  assert (findIndex is_commonjs (items (plugins (rollup commonjs c)))
          = Some 0%nat) as Hfirst.
  { unfold rollup. cbn [plugins unshift items findIndex]. by rewrite Hcj. }
  split; [exact Hfirst|]. split.
  - unfold rollup. cbn [plugins unshift items].
    unfold count_commonjs at 1. cbn [List.filter]. rewrite Hcj. cbn [length].
    fold (count_commonjs (items (assign (findIndex is_commonjs (items (plugins c)))
                                   PluginFalse (plugins c)))).
    destruct (findIndex is_commonjs (items (plugins c))) as [j|] eqn:Hj.
    + destruct (findIndex_Some _ _ _ Hj) as (p & Hp & _).
      apply lookup_lt_Some in Hp. cbn. rewrite decide_True by done.
      pose proof (count_commonjs_replaced _ _ Hj) as Hc.
      unfold count_commonjs in *. lia.
    + pose proof (count_commonjs_none _ Hj) as Hc.
      cbn. unfold count_commonjs in *. lia.
  - unfold rollup at 1. cbn [plugins unshift items]. rewrite Hfirst.
    unfold rollup. cbn [plugins unshift items assign minus_one length].
    rewrite decide_True by lia. done.
Qed.

Lemma rollup_puts_configured_commonjs_first_witness :
  is_commonjs (sample_commonjs commonjs_include) = true ∧
  count_commonjs (items (plugins sample_config)) = 1%nat ∧
  count_commonjs (items (plugins (rollup sample_commonjs sample_config)))
    = 1%nat ∧
  items (plugins (rollup sample_commonjs (rollup sample_commonjs sample_config)))
    !! 1%nat = Some PluginFalse.
Proof.
  destruct (rollup_puts_configured_commonjs_first sample_commonjs sample_config
              eq_refl) as (_ & Hcount & Htwice).
  split; [reflexivity|]. split; [reflexivity|].
  split; [exact Hcount|]. by rewrite Htwice.
Defined.

(** * One render at a time *)

(** The renders that [rerender] runs in one go. *)
Lemma rerender_by_renders env s :
  rerender update_depth_limit env s
  = (p ← render env s; p' ← flush env p; Ok (hook p')).
Proof.
  rewrite rerender_limit. unfold render, flush, pending_flags.
  cbn [rerender mbind result_bind].
  destruct (commit env s) as [[s1 us]|e] eqn:E1; [|done]. cbn.
  case_decide as Hf; [done|]. unfold render.
  apply commit_frame in E1 as (Hv & Ho & _ & Hd).
  set (s2 := mkHook _ _ _ _ _ _ _).
  assert (depsChanged (memo1 s2) (deps1 s2) = false) as Hd2.
  { subst s2. cbn in *. by rewrite Hv, Ho. }
  destruct (commit env s2) as [[s3 us3]|e] eqn:E2; [|done].
  apply (commit_no_update _ _ _ _ Hd2) in E2 as ->. cbn.
  by case_decide.
Qed.

Lemma mount_by_renders env v o :
  mount env v o = (p ← first_call env v o; p' ← flush env p; Ok (hook p')).
Proof. apply rerender_by_renders. Qed.

Lemma evaluate_by_renders env v o s :
  evaluate env v o s
  = (p ← call env v o (mkFiber s []); p' ← flush env p; Ok (hook p')).
Proof. apply rerender_by_renders. Qed.

Lemma flush_one env cb s :
  flush env (mkFiber s [cb])
  = if decide (apply_setState (flags s) cb = flags s) then Ok (mkFiber s [])
    else render env (with_flags (apply_setState (flags s) cb) s).
Proof. reflexivity. Qed.

Lemma flush_none env s : flush env (mkFiber s []) = Ok (mkFiber s []).
Proof. unfold flush, pending_flags. cbn. by rewrite decide_True. Qed.

Lemma dispatch_by_renders env cb s :
  dispatch env cb s
  = (p ← flush env (mkFiber s [cb]); p' ← flush env p; Ok (hook p')).
Proof.
  unfold dispatch. rewrite rerender_by_renders, flush_one.
  case_decide; [|done].
  cbn [mbind result_bind]. by rewrite flush_none.
Qed.

Lemma fire_timeout_by_renders env id s :
  fire_timeout env id s
  = (p ← flush env (timeout id (mkFiber s []));
     p' ← flush env p; Ok (hook p')).
Proof.
  unfold fire_timeout, timeout. cbn [hook queue].
  destruct (timers (window s) !! id) as [[cb d]|].
  - apply dispatch_by_renders.
  - rewrite flush_none. cbn [mbind result_bind]. by rewrite flush_none.
Qed.

Lemma fire_frame_by_renders env id s :
  fire_frame env id s
  = (p ← flush env (frame id (mkFiber s []));
     p' ← flush env p; Ok (hook p')).
Proof.
  unfold fire_frame, frame. cbn [hook queue].
  destruct (frames (window s) !! id) as [cb|].
  - apply dispatch_by_renders.
  - rewrite flush_none. cbn [mbind result_bind]. by rewrite flush_none.
Qed.

Lemma sample_entering100_by_renders :
  (p ← first_call browser false shared100;
   perform_all browser
     [Flush; Call true shared100; Flush; Frame 0; Flush] p)
  = Ok (mkFiber sample_entering100 []).
Proof. vm_compute. reflexivity. Qed.

(** Claim C1.  The claim fails on the code.  The hook is brought to the
    middle of its enter transition under [{transitionDuration: 100}], the
    enter timer (handle 1) pending, and the parent hides it.  The commit of
    that render starts the exit timer and requests [hasEntered := false], but
    leaves the enter timer pending: the third effect does not list
    [isVisible] among its dependencies, so its destructor runs at the next
    render only.  The enter timer fires before that render and sets
    [hasEntered] to [true] after the reset.  Once the exit timer has fired
    the hook is unmounted, nothing is pending, and [hasEntered] is still
    [true]. *)
Theorem stale_enter_timer_breaks_exit_invariant :
  ∃ p0 p1 p2 p3,
    first_call browser false shared100 = Ok p0 ∧
    perform_all browser [Flush; Call true shared100; Flush; Frame 0; Flush] p0
    = Ok (mkFiber sample_entering100 []) ∧
    call browser false shared100 (mkFiber sample_entering100 []) = Ok p1 ∧
    queue p1 = [setHasEntered false; setAnimateIsVisible false] ∧
    timers (window (hook p1)) !! 1%nat = Some (setHasEntered true, Some 100) ∧
    perform_all browser [Timeout 1; Flush] p1 = Ok p2 ∧
    flags (hook p2) = mkFlags false true true ∧
    timers (window (hook p2)) = {[ 2%nat := (setIsMounted false, Some 100) ]} ∧
    perform_all browser [Timeout 2; Flush] p2 = Ok p3 ∧
    queue p3 = [] ∧
    timers (window (hook p3)) = ∅ ∧ frames (window (hook p3)) = ∅ ∧
    isMounted (flags (hook p3)) = false ∧
    animateIsVisible (flags (hook p3)) = false ∧
    hasEntered (flags (hook p3)) = true.
Proof.
  eexists _, _, _, _.
  do 14 (split; [vm_compute; reflexivity|]). vm_compute; reflexivity.
Qed.

(** Claim C6.  The claim fails on the code for the enter timer and holds
    for the paint callback.  After the call that hides the target during the
    enter transition, the enter timer is still pending beside the new exit
    timer; it fires and sets [hasEntered] while the target is hidden.  From
    the state that awaits the paint callback the same call cancels that
    callback in its own commit, the second effect having [isVisible] among
    its dependencies: running the frame afterwards does nothing. *)
Theorem superseded_enter_timer_still_fires :
  (∃ p0 p1 p2,
     first_call browser false shared100 = Ok p0 ∧
     perform_all browser [Flush; Call true shared100; Flush; Frame 0; Flush] p0
     = Ok (mkFiber sample_entering100 []) ∧
     call browser false shared100 (mkFiber sample_entering100 []) = Ok p1 ∧
     isVisible (hook p1) = false ∧
     timers (window (hook p1)) !! 1%nat = Some (setHasEntered true, Some 100) ∧
     timers (window (hook p1)) !! 2%nat = Some (setIsMounted false, Some 100) ∧
     perform_all browser [Timeout 1; Flush] p1 = Ok p2 ∧
     isVisible (hook p2) = false ∧
     hasEntered (flags (hook p2)) = true) ∧
  (∃ p0 p1,
     first_call browser false shared100 = Ok p0 ∧
     perform_all browser [Flush; Call true shared100; Flush] p0
     = Ok (mkFiber sample_pre_entry []) ∧
     frames (window sample_pre_entry) !! 0%nat
     = Some (setAnimateIsVisible true) ∧
     call browser false shared100 (mkFiber sample_pre_entry []) = Ok p1 ∧
     frames (window (hook p1)) = ∅ ∧
     frame 0 p1 = p1).
Proof.
  split.
  - eexists _, _, _.
    do 8 (split; [vm_compute; reflexivity|]). vm_compute; reflexivity.
  - eexists _, _.
    do 5 (split; [vm_compute; reflexivity|]). vm_compute; reflexivity.
Qed.

(** ** The paint callback under every interleaving *)

Lemma run_destructor_timers d w id x :
  timers (run_destructor d w) !! id = Some x → timers w !! id = Some x.
Proof.
  destruct d as [[k|k]|]; cbn; [|done..].
  rewrite lookup_delete. by case_decide.
Qed.

Lemma run_destructor_frames d w id x :
  frames (run_destructor d w) !! id = Some x → frames w !! id = Some x.
Proof.
  destruct d as [[k|k]|]; cbn; [done| |done].
  rewrite lookup_delete. by case_decide.
Qed.

Lemma destroy_timers m w id x :
  timers (destroy m w) !! id = Some x → timers w !! id = Some x.
Proof. destruct m as [[ds d]|]; cbn; [apply run_destructor_timers|done]. Qed.

Lemma destroy_frames m w id x :
  frames (destroy m w) !! id = Some x → frames w !! id = Some x.
Proof. destruct m as [[ds d]|]; cbn; [apply run_destructor_frames|done]. Qed.

Lemma effect1_window v d w us dt w' :
  effect1 v d w = (us, dt, w') →
  frames w' = frames w ∧ nextFrame w' = nextFrame w ∧
  (∀ id x, timers w' !! id = Some x →
     timers w !! id = Some x ∨ x = (setIsMounted false, d)) ∧
  (us = [setIsMounted true] ∧ v = true ∨
   us = [setHasEntered false; setAnimateIsVisible false] ∧ v = false).
Proof.
  unfold effect1. destruct v; cbn; intros [= <- <- <-]; cbn.
  - repeat split; auto.
  - repeat split; auto. intros id x. rewrite lookup_insert.
    case_decide; [intros [= <-]; by right|by left].
Qed.

Lemma effect3_window d f w dt w' :
  effect3 d f w = (dt, w') →
  frames w' = frames w ∧ nextFrame w' = nextFrame w ∧
  (∀ id x, timers w' !! id = Some x →
     timers w !! id = Some x ∨ x = (setHasEntered true, d)).
Proof.
  unfold effect3. destruct (_ && _); cbn; intros [= <- <-]; cbn.
  - repeat split; auto. intros id x. rewrite lookup_insert.
    case_decide; [intros [= <-]; by right|by left].
  - repeat split; auto.
Qed.

Lemma effect2_window env v f w dt w' :
  effect2 env v f w = Ok (dt, w') →
  (∀ id x, timers w' !! id = Some x → timers w !! id = Some x) ∧
  (if v && isMounted f && negb (animateIsVisible f)
   then dt = Some (CancelAnimationFrame (nextFrame w)) ∧
        frames w' = <[nextFrame w := setAnimateIsVisible true]> (frames w)
   else dt = None ∧ frames w' = frames w).
Proof.
  unfold effect2. rewrite force_reflow_reads.
  unfold document_body_offsetHeight.
  destruct (v && isMounted f && negb (animateIsVisible f)); cbn.
  - destruct (hasDocument env); cbn; [|done]. intros [= <- <-]. cbn. auto.
  - intros [= <- <-]. auto.
Qed.

Lemma commit_inv env s s' us :
  commit env s = Ok (s', us) →
  ∃ m1 w1 m2 w2 m3 w3,
    s' = mkHook (isVisible s) (opts s) (flags s) m1 m2 m3 w3 ∧
    (if depsChanged (memo1 s) (deps1 s)
     then ∃ d, effect1 (isVisible s) (exitTransitionDuration_of (opts s))
                 (destroyed s) = (us, d, w1) ∧ m1 = Some (deps1 s, d)
     else us = [] ∧ m1 = memo1 s ∧ w1 = destroyed s) ∧
    (if depsChanged (memo2 s) (deps2 s)
     then ∃ d, effect2 env (isVisible s) (flags s) w1 = Ok (d, w2) ∧
               m2 = Some (deps2 s, d)
     else m2 = memo2 s ∧ w2 = w1) ∧
    (if depsChanged (memo3 s) (deps3 s)
     then ∃ d, effect3 (enterTransitionDuration_of (opts s)) (flags s) w2
               = (d, w3) ∧ m3 = Some (deps3 s, d)
     else m3 = memo3 s ∧ w3 = w2).
Proof.
  unfold commit, destroyed, mbind, result_bind. intros H.
  repeat case_match; simplify_eq.
  all: eexists _, _, _, _, _, _; split; [reflexivity|]; eauto 10.
Qed.

Lemma frames_empty_iff w :
  frames w = ∅ ↔ ∀ j cb, frames w !! j = Some cb → False.
Proof.
  rewrite map_empty. split.
  - intros H j cb. by rewrite H.
  - intros H j. destruct (frames w !! j) eqn:E; [|done]. by destruct (H _ _ E).
Qed.

Lemma destroyed_frames s j cb :
  frames (destroyed s) !! j = Some cb → frames (window s) !! j = Some cb.
Proof.
  unfold destroyed. intros H.
  repeat case_match; repeat apply destroy_frames in H; done.
Qed.

Lemma deps2_hidden_changed s ds :
  length ds = 4%nat → ds !! 3%nat = Some (DepBool true) →
  isVisible s = false → areHookInputsEqual (deps2 s) ds = false.
Proof.
  destruct ds as [|a [|b [|c [|d [|]]]]]; try done.
  intros _ [= ->] HV. cbn. rewrite HV. cbn. by rewrite !andb_false_r.
Qed.

(** With the second effect among those re-run, its destructor has cancelled
    the pending frame before any effect runs. *)
Lemma destroyed_frames_cancelled s :
  paint_tracked s → depsChanged (memo2 s) (deps2 s) = true →
  frames (destroyed s) = ∅.
Proof.
  unfold paint_tracked, destroyed. intros Hp Hc. rewrite Hc.
  apply frames_empty_iff. intros j cb H.
  assert (frames (destroy (memo2 s)
            (if depsChanged (memo1 s) (deps1 s)
             then destroy (memo1 s) (window s) else window s)) !! j = Some cb)
    as H2 by (case_match; [by apply destroy_frames in H|done]).
  clear H. destruct (memo2 s) as [[ds [[k|k]|]]|]; cbn in H2.
  - by destruct Hp.
  - destruct Hp as (_ & _ & Hk). rewrite lookup_delete in H2.
    case_decide as Hj; [done|]. apply Hj. symmetry. apply (Hk j cb).
    case_match; [by apply destroy_frames in H2|done].
  - destruct Hp as (_ & He). rewrite frames_empty_iff in He. apply (He j cb).
    case_match; [by apply destroy_frames in H2|done].
  - rewrite frames_empty_iff in Hp. apply (Hp j cb).
    case_match; [by apply destroy_frames in H2|done].
Qed.

Lemma commit_paint_tracked env s s' us :
  paint_tracked s → commit env s = Ok (s', us) →
  paint_tracked s' ∧ (isVisible s = false → frames (window s') = ∅).
Proof.
  intros Hp (m1 & w1 & m2 & w2 & m3 & w3 & -> & H1 & H2 & H3)%commit_inv.
  assert (frames w1 = frames (destroyed s)) as F1.
  { destruct (depsChanged (memo1 s) _).
    - destruct H1 as (d & H1 & _). by apply effect1_window in H1 as (-> & _).
    - by destruct H1 as (_ & _ & ->). }
  assert (frames w3 = frames w2) as F3.
  { destruct (depsChanged (memo3 s) _).
    - destruct H3 as (d & H3 & _). by apply effect3_window in H3 as (-> & _).
    - by destruct H3 as (_ & ->). }
  unfold paint_tracked. cbn [memo2 window]. rewrite F3.
  destruct (depsChanged (memo2 s) (deps2 s)) eqn:Hc.
  - destruct H2 as (d & H2 & ->).
    apply effect2_window in H2 as (_ & H2).
    pose proof (destroyed_frames_cancelled s Hp Hc) as He.
    destruct (isVisible s) eqn:HV; cbn in H2.
    + destruct (isMounted (flags s) && negb (animateIsVisible (flags s))).
      * destruct H2 as (-> & ->). rewrite F1, He. split; [|done].
        split; [done|]. split; [cbn; by rewrite HV|].
        intros j cb. rewrite lookup_insert. by case_decide.
      * destruct H2 as (-> & ->). rewrite F1, He. done.
    + destruct H2 as (-> & ->). rewrite F1, He. done.
  - destruct H2 as (-> & ->). rewrite F1.
    assert (∀ j cb, frames (destroyed s) !! j = Some cb →
                    frames (window s) !! j = Some cb) as Hsub
      by apply destroyed_frames.
    unfold paint_tracked in Hp. unfold depsChanged in Hc.
    destruct (memo2 s) as [[ds [[k|k]|]]|]; [| | |done].
    + by destruct Hp.
    + destruct Hp as (Hl & H3' & Hk). split; [by eauto|].
      intros HV. by rewrite (deps2_hidden_changed s ds) in Hc.
    + destruct Hp as (Hl & He). rewrite frames_empty_iff in He.
      assert (frames (destroyed s) = ∅) as ->
        by (apply frames_empty_iff; intros j cb ?%Hsub; by eapply He).
      done.
Qed.

Lemma destroyed_timers s id x :
  timers (destroyed s) !! id = Some x → timers (window s) !! id = Some x.
Proof.
  unfold destroyed. intros H.
  repeat case_match; repeat apply destroy_timers in H; done.
Qed.

Lemma commit_timers_tracked env s s' us :
  timers_tracked s → commit env s = Ok (s', us) → timers_tracked s'.
Proof.
  intros Ht (m1 & w1 & m2 & w2 & m3 & w3 & -> & H1 & H2 & H3)%commit_inv.
  assert (∀ id cb d, timers w1 !! id = Some (cb, d) →
            cb = setHasEntered true ∨ cb = setIsMounted false) as T1.
  { intros id cb d Hl. destruct (depsChanged (memo1 s) _).
    - destruct H1 as (dt & H1 & _).
      apply effect1_window in H1 as (_ & _ & H1 & _).
      destruct (H1 _ _ Hl) as [Hl'%destroyed_timers|[= -> _]]; eauto.
    - destruct H1 as (_ & _ & ->). apply destroyed_timers in Hl. eauto. }
  assert (∀ id cb d, timers w2 !! id = Some (cb, d) →
            cb = setHasEntered true ∨ cb = setIsMounted false) as T2.
  { intros id cb d Hl. destruct (depsChanged (memo2 s) _).
    - destruct H2 as (dt & H2 & _).
      apply effect2_window in H2 as (H2 & _). eauto.
    - destruct H2 as (_ & ->). eauto. }
  intros id cb d Hl. cbn in Hl. destruct (depsChanged (memo3 s) _).
  - destruct H3 as (dt & H3 & _).
    apply effect3_window in H3 as (_ & _ & H3).
    destruct (H3 _ _ Hl) as [?|[= -> _]]; eauto.
  - destruct H3 as (_ & ->). eauto.
Qed.

Lemma commit_memo1_tracked env s s' us :
  (memo1 s = None ∨ ∃ v x d, memo1 s = Some ([DepBool v; DepNumber x], d)) →
  commit env s = Ok (s', us) → memo1_tracked s'.
Proof.
  intros Hm (m1 & w1 & m2 & w2 & m3 & w3 & -> & H1 & _)%commit_inv.
  unfold memo1_tracked. cbn [memo1 isVisible].
  destruct (depsChanged (memo1 s) (deps1 s)) eqn:Hc.
  - destruct H1 as (d & _ & ->). cbn. eauto.
  - destruct H1 as (_ & -> & _).
    destruct Hm as [Hm|(v & x & d & Hm)]; rewrite Hm in *; [done|].
    cbn in Hc. apply negb_false_iff, andb_prop in Hc as [Hv%Bool.eqb_prop _].
    rewrite Hv. eauto.
Qed.

(** The updates a commit with a hidden target requests leave
    [animateIsVisible] false, provided it was false already whenever the
    first effect does not run. *)
Lemma commit_hidden_pending env s s' us :
  isVisible s = false → commit env s = Ok (s', us) →
  (depsChanged (memo1 s) (deps1 s) = false →
   animateIsVisible (flags s) = false) →
  animateIsVisible (fold_left apply_setState us (flags s')) = false.
Proof.
  intros HV (m1 & w1 & m2 & w2 & m3 & w3 & -> & H1 & _)%commit_inv HA.
  cbn [flags]. destruct (depsChanged (memo1 s) (deps1 s)).
  - destruct H1 as (d & H1 & _).
    apply effect1_window in H1 as (_ & _ & _ & [[_ ?]|[-> _]]); [congruence|].
    done.
  - destruct H1 as (-> & _). cbn. auto.
Qed.

Lemma render_tracked env s p :
  paint_tracked s → timers_tracked s →
  (memo1 s = None ∨ ∃ v x d, memo1 s = Some ([DepBool v; DepNumber x], d)) →
  (isVisible s = false → depsChanged (memo1 s) (deps1 s) = false →
   animateIsVisible (flags s) = false) →
  render env s = Ok p →
  tracked p ∧ isVisible (hook p) = isVisible s.
Proof.
  intros Hp Ht Hm HA. unfold render, mbind, result_bind.
  destruct (commit env s) as [[s' us]|] eqn:Hc; [|done]. intros [= <-].
  pose proof (commit_frame _ _ _ _ Hc) as (HV & _).
  pose proof (commit_paint_tracked _ _ _ _ Hp Hc) as (Hp' & Hf).
  split; [|done]. unfold tracked, pending_flags. cbn [hook queue].
  split_and!; eauto using commit_timers_tracked, commit_memo1_tracked.
  rewrite HV. intros E. split; [auto|].
  eapply commit_hidden_pending; eauto.
Qed.

Lemma first_call_tracked env v o p :
  first_call env v o = Ok p → tracked p ∧ isVisible (hook p) = v.
Proof.
  intros H. apply render_tracked in H; [done|done|..].
  - by intros ???.
  - by left.
  - done.
Qed.

Lemma memo1_hidden_unchanged v x d dur :
  depsChanged (Some ([DepBool v; DepNumber x], d))
    [DepBool false; DepNumber dur] = false → v = false.
Proof.
  cbn. intros [Hv _]%negb_false_iff%andb_prop. by destruct v.
Qed.

Lemma call_tracked env v o p p' :
  tracked p → call env v o p = Ok p' →
  tracked p' ∧ isVisible (hook p') = v.
Proof.
  intros (Hp & Ht & (x & d & Hm) & HA) H.
  apply render_tracked in H; [done|done|done|..].
  - right. cbn. eauto.
  - cbn [isVisible memo1 flags]. intros ->. rewrite Hm. unfold deps1.
    cbn [isVisible]. intros E%memo1_hidden_unchanged. by apply HA.
Qed.

Lemma pending_flags_done s : pending_flags (mkFiber s []) = flags s.
Proof. done. Qed.

Lemma flush_tracked env p p' :
  tracked p → flush env p = Ok p' →
  tracked p' ∧ isVisible (hook p') = isVisible (hook p).
Proof.
  intros (Hp & Ht & (x & d & Hm) & HA). unfold flush. case_decide as E.
  - intros [= <-]. split; [|done]. unfold tracked.
    rewrite pending_flags_done. cbn [hook]. rewrite <- E.
    split_and!; [done|done|by exists x, d|done].
  - intros H. apply render_tracked in H.
    + by destruct (hook p).
    + by destruct (hook p).
    + by destruct (hook p).
    + right. destruct (hook p). cbn in *. eauto.
    + destruct (hook p). cbn in *. intros -> _. by apply HA.
Qed.

Lemma pending_flags_snoc s us u :
  pending_flags (mkFiber s (us ++ [u])) =
  apply_setState (pending_flags (mkFiber s us)) u.
Proof. unfold pending_flags. cbn. by rewrite fold_left_app. Qed.

Lemma timeout_tracked id p :
  tracked p →
  tracked (timeout id p) ∧ isVisible (hook (timeout id p)) = isVisible (hook p).
Proof.
  intros (Hp & Ht & (x & d & Hm) & HA). unfold timeout.
  destruct (timers (window (hook p)) !! id) as [[cb dl]|] eqn:Hl.
  2:{ split; [|done]. by split_and!; [| |exists x, d|]. }
  destruct p as [s us]. destruct s as [v o f m1 m2 m3 w]. cbn in *.
  split; [|done]. unfold tracked. cbn [hook]. split_and!.
  - done.
  - intros j cb' d'. cbn. rewrite lookup_delete. case_decide; [done|].
    apply Ht.
  - exists x, d. done.
  - cbn. intros E. destruct (HA E) as [HF HP]. split; [done|].
    unfold pending_flags in *. cbn in *. rewrite fold_left_app. cbn.
    destruct (Ht _ _ _ Hl) as [-> | ->]; cbn; done.
Qed.

Lemma frame_tracked id p :
  tracked p →
  tracked (frame id p) ∧ isVisible (hook (frame id p)) = isVisible (hook p).
Proof.
  intros (Hp & Ht & (x & d & Hm) & HA). unfold frame.
  destruct (frames (window (hook p)) !! id) as [cb|] eqn:Hl.
  2:{ split; [|done]. by split_and!; [| |exists x, d|]. }
  destruct p as [s us]. destruct s as [v o f m1 m2 m3 w]. cbn in *.
  split; [|done]. unfold tracked. cbn [hook]. split_and!.
  - unfold paint_tracked in *. cbn in *.
    destruct m2 as [[ds [[k|k]|]]|]; try done.
    + destruct Hp as (? & ? & Hp). split_and!; [done..|].
      intros j cb'. rewrite lookup_delete. case_decide; [done|]. apply Hp.
    + destruct Hp as (? & Hp). by rewrite Hp, lookup_empty in Hl.
    + by rewrite Hp, lookup_empty in Hl.
  - done.
  - exists x, d. done.
  - cbn. intros E. destruct (HA E) as [HF HP].
    by rewrite HF, lookup_empty in Hl.
Qed.

Lemma perform_tracked env t p p' :
  tracked p → perform env t p = Ok p' →
  tracked p' ∧
  (stays_hidden t = true → isVisible (hook p) = false →
   isVisible (hook p') = false).
Proof.
  intros Hp. destruct t as [v o| |id|id]; cbn.
  - intros (? & ?)%call_tracked; [|done]. split; [done|].
    destruct v; [done|]. done.
  - intros (? & ?)%flush_tracked; [|done]. split; [done|]. congruence.
  - intros [= <-]. destruct (timeout_tracked id p Hp). split; [done|].
    congruence.
  - intros [= <-]. destruct (frame_tracked id p Hp). split; [done|].
    congruence.
Qed.

Lemma ireachable_tracked env p : ireachable env p → tracked p.
Proof.
  induction 1 as [v o p H|t p p' _ IH H].
  - by apply first_call_tracked in H as [? _].
  - by apply perform_tracked in H as [? _].
Qed.

Lemma hidden_stays_hidden env ts p p' :
  tracked p → isVisible (hook p) = false →
  forallb stays_hidden ts = true → perform_all env ts p = Ok p' →
  tracked p' ∧ isVisible (hook p') = false.
Proof.
  revert p. induction ts as [|t ts IH]; intros p Hp HV Hs; cbn.
  - by intros [= <-].
  - cbn in Hs. apply andb_prop in Hs as [Ht Hs].
    unfold mbind, result_bind.
    destruct (perform env t p) as [q|] eqn:Hq; [|done].
    apply perform_tracked in Hq as [? Hq]; [|done]. apply IH; auto.
Qed.

Lemma ireachable_perform_all env ts p p' :
  ireachable env p → perform_all env ts p = Ok p' → ireachable env p'.
Proof.
  revert p. induction ts as [|t ts IH]; intros p Hp; cbn.
  - by intros [= <-].
  - unfold mbind, result_bind.
    destruct (perform env t p) as [q|] eqn:Hq; [|done].
    apply IH. by eapply ireachable_step.
Qed.

Lemma sample_pre_entry_ireachable :
  ireachable browser (mkFiber sample_pre_entry []).
Proof.
  eapply (ireachable_perform_all browser [Flush; Call true shared100; Flush]).
  - by eapply (ireachable_first browser false shared100).
  - vm_compute. reflexivity.
Qed.

(** Property X16.  Under every interleaving of calls, renders and
    callbacks: a call that hides the target leaves no animation frame
    pending, and the next render reads [animateIsVisible] as [false]; both
    stay so, whatever callbacks and renders follow, until a call makes the
    target visible again. *)
Theorem hiding_cancels_paint_callback env o p p' :
  ireachable env p → call env false o p = Ok p' →
  frames (window (hook p')) = ∅ ∧
  animateIsVisible (pending_flags p') = false ∧
  ∀ ts p'', forallb stays_hidden ts = true →
    perform_all env ts p' = Ok p'' →
    frames (window (hook p'')) = ∅ ∧
    animateIsVisible (pending_flags p'') = false.
Proof.
  intros Hr%ireachable_tracked Hc.
  apply call_tracked in Hc as [Hp HV]; [|done].
  pose proof Hp as (_ & _ & _ & HA). destruct (HA HV) as [? ?].
  split_and!; [done..|]. intros ts p'' Hs Hq.
  destruct (hidden_stays_hidden _ _ _ _ Hp HV Hs Hq) as [(_ & _ & _ & HA') HV'].
  by apply HA'.
Qed.

Lemma hiding_cancels_paint_callback_witness :
  frames (window sample_pre_entry) !! 0%nat = Some (setAnimateIsVisible true) ∧
  ∃ p', call browser false shared100 (mkFiber sample_pre_entry []) = Ok p' ∧
    frames (window (hook p')) = ∅ ∧
    animateIsVisible (pending_flags p') = false ∧
    ∀ ts p'', forallb stays_hidden ts = true →
      perform_all browser ts p' = Ok p'' →
      frames (window (hook p'')) = ∅ ∧
      animateIsVisible (pending_flags p'') = false.
Proof.
  split; [vm_compute; reflexivity|].
  eexists. split; [vm_compute; reflexivity|].
  apply (hiding_cancels_paint_callback browser shared100
           (mkFiber sample_pre_entry []));
    [exact sample_pre_entry_ireachable | vm_compute; reflexivity].
Defined.
